(** * Job Finder API: the [/api/jobs] handler of [main.py]

A shallow embedding of [search_jobs] (main.py, lines 78-168) and of the
[Job] model (lines 19-29), followed by the properties the specification
states about them.

Conventions of the embedding.
- A Python [str] is a [string] whose characters are code points below
  256; [lower] and [strip] follow Python's tables on that range.
- JSON data decoded by [r.json()] is a [pyval].  A float is carried by
  its [repr]; a dict is an association list read at its first binding.
- The body of the [try] statement runs in a small state-and-exception
  monad: the state is the local list [jobs], an exception leaves the
  state as it was when it was raised.
- What the handler takes from its libraries without fixing it in the
  source is an interface: [Library] (pydantic's validation of a [str]
  field, [str()] of a container) and [SetOrder] (the iteration order of
  a set literal). *)

From Stdlib Require Import String Ascii List ZArith NArith Bool Lia.
From Stdlib Require Import Permutation DecimalString.
Import ListNotations.
Local Open Scope list_scope.
Local Open Scope string_scope.
Local Set Warnings "-register-all".

(** ** Python strings *)

Module PyStr.

(** [c.lower()] for one character: A-Z, and the Latin-1 capitals
    U+00C0..U+00DE without the multiplication sign U+00D7. *)
Definition lower_char (c : ascii) : ascii :=
  let n := N_of_ascii c in
  if ((65 <=? n) && (n <=? 90) ||
      (192 <=? n) && (n <=? 222) && negb (n =? 215))%N
  then ascii_of_N (n + 32) else c.

Fixpoint lower (s : string) : string :=
  match s with
  | EmptyString => EmptyString
  | String c t => String (lower_char c) (lower t)
  end.

(** [c.isspace()] below 256: TAB..CR, FS..US, space, NEL, NBSP. *)
Definition isspace (c : ascii) : bool :=
  let n := N_of_ascii c in
  ((9 <=? n) && (n <=? 13) || (28 <=? n) && (n <=? 32) ||
   (n =? 133) || (n =? 160))%N.

Fixpoint lstrip (s : string) : string :=
  match s with
  | EmptyString => EmptyString
  | String c t => if isspace c then lstrip t else s
  end.

Fixpoint rstrip (s : string) : string :=
  match s with
  | EmptyString => EmptyString
  | String c t =>
      match rstrip t with
      | EmptyString => if isspace c then EmptyString else String c EmptyString
      | t' => String c t'
      end
  end.

(** [s.strip()] *)
Definition strip (s : string) : string := rstrip (lstrip s).

(** [needle in hay] *)
Fixpoint contains (needle hay : string) : bool :=
  String.prefix needle hay ||
  match hay with
  | EmptyString => false
  | String _ t => contains needle t
  end.

(** [s.replace(old, new)] for a one-character [old]. *)
Fixpoint replace (old : ascii) (new s : string) : string :=
  match s with
  | EmptyString => EmptyString
  | String c t =>
      if Ascii.eqb c old then new ++ replace old new t
      else String c (replace old new t)
  end.

(** [sep.join(parts)] *)
Fixpoint join (sep : string) (parts : list string) : string :=
  match parts with
  | [] => EmptyString
  | [p] => p
  | p :: rest => p ++ sep ++ join sep rest
  end.

(** [x in {...}] and [x in [...]] for strings. *)
Definition mem (x : string) (xs : list string) : bool :=
  existsb (String.eqb x) xs.

(** What "is a substring of" means. *)
Definition substring_of (needle hay : string) : Prop :=
  exists pre post, hay = pre ++ needle ++ post.

End PyStr.

(** ** Python values decoded from JSON *)

Inductive pyval : Type :=
| PNone
| PBool (b : bool)
| PInt (z : Z)
| PFloat (repr : string)
| PStr (s : string)
| PList (l : list pyval)
| PDict (kv : list (string * pyval)).

(** Truth value of an object, as [if x:] and [x or y] test it. *)
Definition truthy (v : pyval) : bool :=
  match v with
  | PNone => false
  | PBool b => b
  | PInt z => negb (z =? 0)%Z
  | PFloat r => negb (String.eqb r "0.0" || String.eqb r "-0.0")
  | PStr s => negb (String.eqb s "")
  | PList l => match l with [] => false | _ => true end
  | PDict kv => match kv with [] => false | _ => true end
  end.

(** [x or y] *)
Definition py_or (x y : pyval) : pyval := if truthy x then x else y.

(** An [Optional[str]] parameter as an object. *)
Definition of_opt (o : option string) : pyval :=
  match o with Some s => PStr s | None => PNone end.

Fixpoint dict_lookup (kv : list (string * pyval)) (k : string) : option pyval :=
  match kv with
  | [] => None
  | (k', v) :: rest => if String.eqb k k' then Some v else dict_lookup rest k
  end.

(** [d.get(k, default)] *)
Definition dict_get (kv : list (string * pyval)) (k : string) (default : pyval)
  : pyval :=
  match dict_lookup kv k with Some v => v | None => default end.

(** The objects a [for] statement draws from [v]; [None] is the [TypeError]
    of an object that is not iterable. A dict yields its keys, a string its
    characters. *)
Definition py_iter (v : pyval) : option (list pyval) :=
  match v with
  | PList l => Some l
  | PDict kv => Some (map (fun p => PStr (fst p)) kv)
  | PStr s => Some (map (fun c => PStr (String c EmptyString)) (list_ascii_of_string s))
  | PNone | PBool _ | PInt _ | PFloat _ => None
  end.

(** ** Library behaviour the source relies on *)

Class Library : Type := {
  (** [str(v)] for a list or a dict. *)
  repr_container : pyval -> string;
  (** pydantic's validation of a field annotated [str]; [None] is a
      [ValidationError]. *)
  validate_str : pyval -> option string;
  validate_str_str : forall s, validate_str (PStr s) = Some s;
  validate_str_none : validate_str PNone = None
}.

(** pydantic 2: a [str] field takes strings only. *)
Definition strict_str (v : pyval) : option string :=
  match v with PStr s => Some s | _ => None end.

(** [str(v)] for the scalars. *)
Definition scalar_str (v : pyval) : string :=
  match v with
  | PNone => "None"
  | PBool true => "True"
  | PBool false => "False"
  | PInt z => NilEmpty.string_of_int (Z.to_int z)
  | PFloat r => r
  | PStr s => s
  | PList _ | PDict _ => ""
  end.

(** pydantic 1: numbers are converted with [str()]. *)
Definition coercing_str (v : pyval) : option string :=
  match v with
  | PStr s => Some s
  | PBool _ | PInt _ | PFloat _ => Some (scalar_str v)
  | PNone | PList _ | PDict _ => None
  end.

(** Two libraries with that interface. Their [repr_container] is a
    placeholder: no record evaluated below has a list or a dict as its
    [id]. *)
Definition pydantic2 : Library := {|
  repr_container := fun _ => "[...]";
  validate_str := strict_str;
  validate_str_str := fun _ => eq_refl;
  validate_str_none := eq_refl
|}.

Definition pydantic1 : Library := {|
  repr_container := fun _ => "[...]";
  validate_str := coercing_str;
  validate_str_str := fun _ => eq_refl;
  validate_str_none := eq_refl
|}.

(** [str(v)] *)
Definition py_str {L : Library} (v : pyval) : string :=
  match v with
  | PList _ | PDict _ => repr_container v
  | _ => scalar_str v
  end.

(** ** The [Job] model (main.py, lines 19-29) *)

Module Job.

Record t : Type := mk {
  id : string;
  title : string;
  company : option string;
  location : option string;
  type : option string;
  salary : option string;
  url : string;
  source : string;
  tags : option (list string);
  description : option string
}.

End Job.

Section Validation.
  Context {L : Library}.

(** A field annotated [Optional[T]]: [None] is accepted as it is. *)
Definition validate_optional {A : Type} (validate : pyval -> option A)
  (v : pyval) : option (option A) :=
  match v with
  | PNone => Some None
  | _ => option_map Some (validate v)
  end.

Fixpoint validate_each (l : list pyval) : option (list string) :=
  match l with
  | [] => Some []
  | v :: rest =>
      match validate_str v, validate_each rest with
      | Some s, Some ss => Some (s :: ss)
      | _, _ => None
      end
  end.

(** A field annotated [List[str]]. *)
Definition validate_list_str (v : pyval) : option (list string) :=
  match v with
  | PList l => validate_each l
  | _ => None
  end.

(** [Job(id=..., title=..., ...)]: every keyword argument is validated
    against its annotation; [None] is the [ValidationError]. *)
Definition Job_new (id title company location type salary url source tags
                    description : pyval) : option Job.t :=
  match validate_str id, validate_str title,
        validate_optional validate_str company,
        validate_optional validate_str location,
        validate_optional validate_str type,
        validate_optional validate_str salary,
        validate_str url, validate_str source,
        validate_optional validate_list_str tags,
        validate_optional validate_str description
  with
  | Some id', Some title', Some company', Some location', Some type',
    Some salary', Some url', Some source', Some tags', Some description' =>
      Some (Job.mk id' title' company' location' type' salary' url' source'
                   tags' description')
  | _, _, _, _, _, _, _, _, _, _ => None
  end.

(** Lines 109-120: the [Job] built from one provider record. [item.get]
    exists on a dict only; on anything else the attribute lookup raises. *)
Definition normalize (item : pyval) : option Job.t :=
  match item with
  | PDict kv =>
      let get k := dict_get kv k PNone in
      Job_new (PStr (py_str (get "id")))
              (py_or (get "title") (PStr "Untitled"))
              (get "company_name")
              (get "candidate_required_location")
              (get "job_type")
              (get "salary")
              (get "url")
              (PStr "Remotive")
              (get "tags")
              (get "description")
  | _ => None
  end.

End Validation.

(** ** The local list [jobs] and exceptions *)

Inductive result (A : Type) : Type :=
| Ok (a : A)
| Raised.
Arguments Ok {A} a.
Arguments Raised {A}.

(** A statement: from the current [jobs] to a value or an exception, and
    the [jobs] it leaves. *)
Definition M (A : Type) : Type := list Job.t -> result A * list Job.t.

Definition ret {A : Type} (a : A) : M A := fun jobs => (Ok a, jobs).

Definition bind {A B : Type} (m : M A) (f : A -> M B) : M B :=
  fun jobs =>
    match m jobs with
    | (Ok a, jobs') => f a jobs'
    | (Raised, jobs') => (Raised, jobs')
    end.

Definition raise {A : Type} : M A := fun jobs => (Raised, jobs).

(** [jobs.append(job)] *)
Definition append (job : Job.t) : M unit := fun jobs => (Ok tt, (jobs ++ [job])%list).

(** Reading the variable [jobs]. *)
Definition current : M (list Job.t) := fun jobs => (Ok jobs, jobs).

(** A call that may raise. *)
Definition lift {A : Type} (o : option A) : M A :=
  match o with Some a => ret a | None => raise end.

(** [try: m  except Exception: pass] *)
Definition try_pass (m : M unit) : M unit :=
  fun jobs => (Ok tt, snd (m jobs)).

(** [for x in xs: body] *)
Fixpoint for_each {A : Type} (xs : list A) (body : A -> M unit) : M unit :=
  match xs with
  | [] => ret tt
  | x :: rest => bind (body x) (fun _ => for_each rest body)
  end.

Declare Scope py_scope.
Delimit Scope py_scope with py.
Notation "x <- m ;; k" := (bind m (fun x => k))
  (at level 61, m at next level, right associativity) : py_scope.
Notation "m ;; k" := (bind m (fun _ => k))
  (at level 61, right associativity) : py_scope.

(** ** The provider *)

(** What [requests.get] gives back: an exception, or a response with its
    [ok] flag and the value of [r.json()] ([None] when decoding raises). *)
Inductive response : Type :=
| ConnectionError
| Reply (ok : bool) (json : option pyval).

(** The provider answers a request by its query parameters. *)
Definition provider : Type := list (string * string) -> response.

(** The set literal of line 128, in source order; the list literal of line
    135 has the same elements. *)
Definition remote_synonyms : list string :=
  ["remote"; "anywhere"; "worldwide"; "global"].

(** The order in which one process iterates over the set of line 128. *)
Record SetOrder : Type := {
  iteration : list string;
  iteration_perm : Permutation iteration remote_synonyms
}.

Definition source_order : SetOrder :=
  {| iteration := remote_synonyms; iteration_perm := Permutation_refl _ |}.

Definition reverse_order : SetOrder :=
  {| iteration := rev remote_synonyms;
     iteration_perm := Permutation_sym (Permutation_rev remote_synonyms) |}.

(** [jobs[:stop]] *)
Definition slice_to {A : Type} (l : list A) (stop : Z) : list A :=
  if (stop <? 0)%Z then firstn (Z.to_nat (Z.of_nat (List.length l) + stop)) l
  else firstn (Z.to_nat stop) l.

(** [enumerate(l)] *)
Definition enumerate {A : Type} (l : list A) : list (nat * A) :=
  combine (seq 0 (List.length l)) l.

(** [job.location or ""] *)
Definition or_empty (o : option string) : string :=
  match o with Some s => s | None => "" end.

(** [if p:] for an [Optional[str]] parameter. *)
Definition given (o : option string) : bool := truthy (of_opt o).

(** ** The handler (main.py, lines 78-168) *)

Section Handler.
  Context {L : Library}.
  Variable order : SetOrder.
  Variable upstream : provider.
  Variables query location category job_type : option string.
  Variable remote : option bool.
  Variable limit : Z.

Local Open Scope py_scope.

(** Lines 95-101. *)
Definition remotive_params : list (string * string) :=
  let entry k o :=
    match o with
    | Some s => if given o then [(k, s)] else []
    | None => []
    end in
  (entry "search" query ++ entry "category" category ++
   entry "job_type" job_type)%list.

(** Lines 123-130: [true] when the [continue] of line 130 is reached. *)
Definition location_skips (job : Job.t) : bool :=
  match location with
  | Some loc =>
      if given location then
        let loc_src := PyStr.lower (or_empty (Job.location job)) in
        if negb (PyStr.contains (PyStr.lower loc) loc_src) then
          let user_loc := PyStr.strip (PyStr.lower loc) in
          negb (PyStr.mem user_loc remote_synonyms &&
                existsb (fun s => PyStr.contains s loc_src) (iteration order))
        else false
      else false
  | None => false
  end.

(** Lines 133-136: [true] when the [continue] of line 136 is reached. *)
Definition remote_skips (job : Job.t) : bool :=
  match remote with
  | Some true =>
      let loc_src := PyStr.lower (or_empty (Job.location job)) in
      negb (existsb (fun s => PyStr.contains s loc_src)
                    ["remote"; "anywhere"; "worldwide"; "global"])
  | _ => false
  end.

(** Lines 108-139: one turn of the loop. *)
Definition loop_body (item : pyval) : M unit :=
  job <- lift (normalize item) ;;
  if location_skips job then ret tt
  else if remote_skips job then ret tt
  else append job.

(** Lines 95-139: the body of the [try] statement. *)
Definition try_body : M unit :=
  match upstream remotive_params with
  | ConnectionError => raise
  | Reply ok json =>
      if ok then
        data <- lift json ;;
        listing <- lift (match data with
                         | PDict kv => Some (dict_get kv "jobs" (PList []))
                         | _ => None
                         end) ;;
        items <- lift (py_iter listing) ;;
        for_each items loop_body
      else ret tt
  end.

(** Line 147. *)
Definition joined_terms : string :=
  PyStr.join " " (flat_map (fun p => match p with
                                     | Some s => if given p then [s] else []
                                     | None => []
                                     end) [query; location]).

(** Lines 148-152. *)
Definition providers : list (string * string) :=
  let q := joined_terms in
  [("Google Jobs",
    "https://www.google.com/search?q=" ++ PyStr.replace " " "+" q ++ "+jobs");
   ("LinkedIn",
    "https://www.linkedin.com/jobs/search/?keywords=" ++ PyStr.replace " " "%20" q);
   ("Indeed",
    "https://www.indeed.com/jobs?q=" ++ PyStr.replace " " "+" q)].

(** Lines 153-165. *)
Definition fallback : M unit :=
  for_each (enumerate providers) (fun entry =>
    let '(i, (name, url)) := entry in
    job <- lift (Job_new
                   (PStr ("fallback-" ++ NilEmpty.string_of_uint (Nat.to_uint i)))
                   (PStr ("Search '" ++ joined_terms ++ "' on " ++ name))
                   PNone
                   (of_opt location)
                   PNone
                   PNone
                   (PStr url)
                   (PStr name)
                   PNone
                   PNone) ;;
    append job).

(** Lines 91-165: the list [jobs] as line 168 finds it. *)
Definition assemble : M unit :=
  try_pass try_body ;;
  jobs <- current ;;
  if match jobs with [] => true | _ => false end &&
     (given query || given location)
  then fallback
  else ret tt.

(** The handler: [Raised] is an exception that reaches the caller. *)
Definition search_jobs : result (list Job.t) :=
  fst ((assemble ;;
        jobs <- current ;;
        ret (slice_to jobs limit)) []).

(** The list [jobs] after the [try] statement, and whether its body
    raised. *)
Definition fetched : list Job.t := snd (try_body []).

Definition fetch_raised : bool :=
  match fst (try_body []) with Raised => true | Ok _ => false end.

(** The list [jobs] before line 168. *)
Definition assembled : list Job.t := snd (assemble []).

End Handler.

(** ** What the specification's words mean on the model *)

(** A parameter was supplied and is not empty. *)
Definition supplied (o : option string) : Prop :=
  exists s, o = Some s /\ s <> "".

(** The location text of a job, lower-cased, mentions a remote synonym. *)
Definition mentions_synonym (job : Job.t) : Prop :=
  exists s, In s remote_synonyms /\
            PyStr.substring_of s (PyStr.lower (or_empty (Job.location job))).

(** The two ways a job passes a location filter [loc]. *)
Definition location_matches (loc : string) (job : Job.t) : Prop :=
  PyStr.substring_of (PyStr.lower loc) (PyStr.lower (or_empty (Job.location job)))
  \/ (In (PyStr.strip (PyStr.lower loc)) remote_synonyms /\ mentions_synonym job).

(** [query] and [location] joined by one space, leaving out what is absent
    or empty. *)
Definition terms_of (query location : option string) : string :=
  match query, location with
  | Some q, Some l =>
      if String.eqb q "" then (if String.eqb l "" then "" else l)
      else if String.eqb l "" then q else q ++ " " ++ l
  | Some q, None => q
  | None, Some l => l
  | None, None => ""
  end.

(** The three entries of the fallback, written out. *)
Definition fallback_jobs (query location : option string) : list Job.t :=
  let q := terms_of query location in
  [ Job.mk "fallback-0" ("Search '" ++ q ++ "' on Google Jobs") None location
           None None
           ("https://www.google.com/search?q=" ++ PyStr.replace " " "+" q ++ "+jobs")
           "Google Jobs" None None;
    Job.mk "fallback-1" ("Search '" ++ q ++ "' on LinkedIn") None location
           None None
           ("https://www.linkedin.com/jobs/search/?keywords="
              ++ PyStr.replace " " "%20" q)
           "LinkedIn" None None;
    Job.mk "fallback-2" ("Search '" ++ q ++ "' on Indeed") None location
           None None
           ("https://www.indeed.com/jobs?q=" ++ PyStr.replace " " "+" q)
           "Indeed" None None ].

(** A provider record as the provider documents it: a [url] string, a
    title that is a string or counts as false, strings or [null] elsewhere,
    and [tags] a list of strings or [null]. *)
Definition str_or_null (v : pyval) : bool :=
  match v with PNone | PStr _ => true | _ => false end.

Definition strs_or_null (v : pyval) : bool :=
  match v with
  | PNone => true
  | PList l => forallb (fun x => match x with PStr _ => true | _ => false end) l
  | _ => false
  end.

Definition well_formed (kv : list (string * pyval)) : bool :=
  let get k := dict_get kv k PNone in
  match get "url" with PStr _ => true | _ => false end &&
  (negb (truthy (get "title")) || str_or_null (get "title")) &&
  str_or_null (get "company_name") &&
  str_or_null (get "candidate_required_location") &&
  str_or_null (get "job_type") &&
  str_or_null (get "salary") &&
  strs_or_null (get "tags") &&
  str_or_null (get "description").

(** An optional field carried over as it is. *)
Definition carried (v : pyval) (field : option string) : Prop :=
  (v = PNone -> field = None) /\ (forall s, v = PStr s -> field = Some s).

Definition carried_list (v : pyval) (field : option (list string)) : Prop :=
  (v = PNone -> field = None) /\
  (forall ss, v = PList (map PStr ss) -> field = Some ss).

(** The records of a listing that the loop appends before it ends, and
    whether it ends by an exception. *)
Section Kept.
  Context {L : Library}.
  Variable order : SetOrder.
  Variable location : option string.
  Variable remote : option bool.

Definition keeps (job : Job.t) : bool :=
  negb (location_skips order location job) && negb (remote_skips remote job).

Fixpoint kept (items : list pyval) : list Job.t * bool :=
  match items with
  | [] => ([], false)
  | item :: rest =>
      match normalize item with
      | None => ([], true)
      | Some job =>
          let '(js, raised) := kept rest in
          ((if keeps job then job :: js else js), raised)
      end
  end.
End Kept.

(** The records the loop is run on; [None] when the request, the status or
    the decoding of the body fails first. *)
Definition listing_of (r : response) : option (list pyval) :=
  match r with
  | Reply true (Some (PDict kv)) => py_iter (dict_get kv "jobs" (PList []))
  | _ => None
  end.

(** ** Inputs used in the examples *)

(** A provider that cannot be reached. *)
Definition unreachable : provider := fun _ => ConnectionError.

Definition fields_1 : list (string * pyval) :=
  [("id", PInt 1); ("title", PStr "Backend Engineer");
   ("company_name", PStr "Acme");
   ("candidate_required_location", PStr "Anywhere in the World");
   ("url", PStr "https://remotive.com/remote-jobs/1")].

Definition posting_1 : pyval := PDict fields_1.

Definition job_1 : Job.t :=
  Job.mk "1" "Backend Engineer" (Some "Acme") (Some "Anywhere in the World")
         None None "https://remotive.com/remote-jobs/1" "Remotive" None None.

(** A record without [url]: [Job(...)] rejects it. *)
Definition posting_without_url : pyval :=
  PDict [("id", PInt 2); ("title", PStr "Site Reliability Engineer")].

(** A provider whose second record is malformed. *)
Definition damaged_feed : provider :=
  fun _ => Reply true
             (Some (PDict [("jobs", PList [posting_1; posting_without_url])])).

Definition posting_berlin : pyval :=
  PDict [("id", PInt 7); ("title", PStr "Data Analyst");
         ("candidate_required_location", PStr "Berlin, Germany");
         ("url", PStr "https://remotive.com/remote-jobs/7")].

Definition job_berlin : Job.t :=
  Job.mk "7" "Data Analyst" None (Some "Berlin, Germany") None None
         "https://remotive.com/remote-jobs/7" "Remotive" None None.

(** A record with neither [id] nor [title]. *)
Definition fields_bare : list (string * pyval) :=
  [("url", PStr "https://remotive.com/remote-jobs/9"); ("salary", PNone)].

Definition posting_bare : pyval := PDict fields_bare.

(** ** The limit parameter (main.py, line 85) *)

(** [limit: int = Query(50, ge=1, le=200)]: the default when the request
    has no [limit], and [None] when the value is refused before the
    handler runs. *)
Definition limit_param (raw : option Z) : option Z :=
  match raw with
  | None => Some 50%Z
  | Some n => if ((1 <=? n) && (n <=? 200))%Z then Some n else None
  end.

(** ** The diagnostic endpoint (main.py, lines 42-75) *)

Module Diagnostics.

(** The literals of the report hold characters above U+00FF; they stand
    here as their UTF-8 bytes. The handler only stores and concatenates
    them. *)

(** An exception as the handlers of lines 64-71 see it: whether it is an
    [ImportError], and [str(e)]. *)
Record exn : Type := {
  is_import_error : bool;
  message : string
}.

(** [hasattr(db, 'name')] and [db.name]: the attribute is missing, has a
    value, or its lookup raises something else than [AttributeError]. *)
Inductive attribute : Type :=
| Missing
| Value (v : pyval)
| Failing (e : exn).

(** [db.list_collection_names()[:10]]: the list the call returns, or the
    exception of the call or of the slice. *)
Inductive listing : Type :=
| Names (l : list pyval)
| Throws (e : exn).

(** The object [db] as the handler uses it. *)
Record db_handle : Type := {
  name : attribute;
  list_collection_names : listing
}.

(** [from database import db]: an exception, or the value of [db]
    ([None] for the Python [None]). *)
Inductive import : Type :=
| ImportRaises (e : exn)
| Imported (db : option db_handle).

(** The dict [response] of lines 45-52, key by key. *)
Record response : Type := mk {
  backend : string;
  database : string;
  database_url : pyval;
  database_name : pyval;
  connection_status : string;
  collections : list pyval
}.

Definition set_database (s : string) (r : response) : response :=
  mk (backend r) s (database_url r) (database_name r) (connection_status r)
     (collections r).

Definition set_database_url (v : pyval) (r : response) : response :=
  mk (backend r) (database r) v (database_name r) (connection_status r)
     (collections r).

Definition set_database_name (v : pyval) (r : response) : response :=
  mk (backend r) (database r) (database_url r) v (connection_status r)
     (collections r).

Definition set_connection_status (s : string) (r : response) : response :=
  mk (backend r) (database r) (database_url r) (database_name r) s
     (collections r).

Definition set_collections (l : list pyval) (r : response) : response :=
  mk (backend r) (database r) (database_url r) (database_name r)
     (connection_status r) l.

(** Lines 45-52. *)
Definition initial : response :=
  mk "✅ Running" "❌ Not Available" PNone PNone "Not Connected" [].

(** [str(e)[:50]] *)
Definition short (e : exn) : string := String.substring 0 50 (message e).

(** Lines 60-65: the inner [try] statement. *)
Definition probe (db : db_handle) (r : response) : response :=
  match list_collection_names db with
  | Names l =>
      set_database "✅ Connected & Working" (set_collections (firstn 10 l) r)
  | Throws e =>
      set_database ("⚠️  Connected but Error: " ++ short e) r
  end.

(** Lines 54-67: the body of the outer [try] statement; the exception that
    leaves it, if any, beside the dict as it then is. *)
Definition outer_body (imp : import) (r : response) : response * option exn :=
  match imp with
  | ImportRaises e => (r, Some e)
  | Imported None =>
      (set_database "⚠️  Available but not initialized" r, None)
  | Imported (Some db) =>
      let r1 := set_database_url (PStr "✅ Configured")
                  (set_database "✅ Available" r) in
      match name db with
      | Failing e => (r1, Some e)
      | Missing =>
          (probe db (set_connection_status "Connected"
                       (set_database_name (PStr "✅ Connected") r1)), None)
      | Value v =>
          (probe db (set_connection_status "Connected"
                       (set_database_name v r1)), None)
      end
  end.

(** Lines 68-71: the two handlers of the outer [try] statement. *)
Definition handlers (state : response * option exn) : response :=
  match state with
  | (r, None) => r
  | (r, Some e) =>
      if is_import_error e
      then set_database
             "❌ Database module not found (run enable-database first)" r
      else set_database ("❌ Error: " ++ short e) r
  end.

(** Lines 43-75. [getenv] is [os.getenv]. *)
Definition test_database (imp : import) (getenv : string -> option string)
  : response :=
  let r := handlers (outer_body imp initial) in
  let r := set_database_url
             (PStr (if given (getenv "DATABASE_URL")
                    then "✅ Set" else "❌ Not Set")) r in
  set_database_name
    (PStr (if given (getenv "DATABASE_NAME")
           then "✅ Set" else "❌ Not Set")) r.

(** The lookup of [db.name] goes through. *)
Definition name_readable (db : db_handle) : Prop :=
  forall e, name db <> Failing e.

End Diagnostics.

(** ** Inputs used in the examples of the diagnostic endpoint *)

Definition mongo : Diagnostics.db_handle :=
  {| Diagnostics.name := Diagnostics.Value (PStr "jobs_db");
     Diagnostics.list_collection_names :=
       Diagnostics.Names (map PInt [1; 2; 3; 4; 5; 6; 7; 8; 9; 10; 11; 12]%Z) |}.

Definition env_url_only (k : string) : option string :=
  if String.eqb k "DATABASE_URL" then Some "mongodb://localhost" else None.

(** A provider whose [jobs] is an object keyed by id, not an array. *)
Definition keyed_feed : provider :=
  fun _ => Reply true
             (Some (PDict [("jobs", PDict [("1", posting_1)])])).

(** * Properties *)

(** ** Strings *)

Module PyStrFacts.
  Import PyStr.

Lemma prefix_iff (a b : string) :
  String.prefix a b = true <-> exists post, b = a ++ post.
Proof.
  revert b. induction a as [|c a IH]; intros b.
  - split; [intros _; now exists b | intros _; now destruct b].
  - destruct b as [|d b]; simpl.
    + split; [discriminate | intros [post H]; discriminate].
    + destruct (ascii_dec c d) as [->|Hne].
      * rewrite IH. split; intros [post H]; exists post.
        -- now rewrite H.
        -- now inversion H.
      * split; [discriminate | intros [post H]; inversion H; congruence].
Qed.

Lemma contains_iff (a b : string) :
  contains a b = true <-> substring_of a b.
Proof.
  unfold substring_of. induction b as [|d b IH].
  - cbn [contains]. rewrite orb_false_r, prefix_iff. split.
    + intros [post H]. exists "", post. exact H.
    + intros [pre [post H]]. destruct pre; simpl in H.
      * now exists post.
      * discriminate.
  - cbn [contains]. rewrite orb_true_iff, prefix_iff, IH. split.
    + intros [[post H]|[pre [post H]]].
      * exists "", post. exact H.
      * exists (String d pre), post. simpl. now rewrite H.
    + intros [pre [post H]]. destruct pre as [|e pre]; simpl in H.
      * left. now exists post.
      * right. exists pre, post. now inversion H.
Qed.

Lemma mem_iff (x : string) (xs : list string) : mem x xs = true <-> In x xs.
Proof.
  unfold mem. rewrite existsb_exists. split.
  - intros [y [Hin Heq]]. apply String.eqb_eq in Heq. now subst.
  - intros Hin. exists x. split; [exact Hin | apply String.eqb_refl].
Qed.

Lemma existsb_perm {A : Type} (f : A -> bool) (l l' : list A) :
  Permutation l l' -> existsb f l = existsb f l'.
Proof.
  induction 1; simpl.
  - reflexivity.
  - now rewrite IHPermutation.
  - now rewrite !orb_assoc, (orb_comm (f y)).
  - congruence.
Qed.

End PyStrFacts.

(** ** The handler, statement by statement *)

Section HandlerFacts.
  Context {L : Library}.

Lemma given_iff (o : option string) : given o = true <-> supplied o.
Proof.
  unfold given, supplied. destruct o as [s|]; simpl.
  - rewrite negb_true_iff. split.
    + intros H. exists s. split; [reflexivity|].
      intros ->. discriminate.
    + intros [s' [Heq Hne]]. injection Heq as <-.
      destruct (String.eqb_spec s ""); [contradiction | reflexivity].
  - split; [discriminate | intros [s [H _]]; discriminate].
Qed.

Lemma given_false_iff (o : option string) : given o = false <-> ~ supplied o.
Proof.
  rewrite <- given_iff. destruct (given o); split; congruence.
Qed.

Lemma joined_terms_eq (query location : option string) :
  joined_terms query location = terms_of query location.
Proof.
  unfold joined_terms, terms_of, given.
  destruct query as [q|], location as [l|]; simpl;
    repeat match goal with
           | |- context [String.eqb ?s ""] =>
               destruct (String.eqb_spec s ""); subst; simpl
           end;
    rewrite ?app_nil_r; reflexivity.
Qed.

Lemma validate_optional_of_opt (o : option string) :
  validate_optional validate_str (of_opt o) = Some o.
Proof.
  destruct o as [s|]; simpl; [|reflexivity].
  now rewrite validate_str_str.
Qed.

(** The constructor accepts what the fallback passes to it. *)
Lemma Job_new_fallback (i t u s : string) (loc : option string) :
  Job_new (PStr i) (PStr t) PNone (of_opt loc) PNone PNone (PStr u) (PStr s)
          PNone PNone
  = Some (Job.mk i t None loc None None u s None None).
Proof.
  unfold Job_new.
  rewrite !validate_str_str, validate_optional_of_opt. reflexivity.
Qed.

Lemma fallback_run (query location : option string) (jobs : list Job.t) :
  fallback query location jobs
  = (Ok tt, (jobs ++ fallback_jobs query location)%list).
Proof.
  unfold fallback, providers, enumerate, fallback_jobs.
  rewrite joined_terms_eq. cbn [List.length seq combine for_each].
  unfold bind, lift, append, ret.
  rewrite !Job_new_fallback. cbn.
  rewrite <- !app_assoc. reflexivity.
Qed.

Section Loop.
  Variable order : SetOrder.
  Variable location : option string.
  Variable remote : option bool.

Lemma loop_body_kept (item : pyval) (job : Job.t) (jobs : list Job.t) :
  normalize item = Some job ->
  loop_body order location remote item jobs
  = (Ok tt, if keeps order location remote job
            then (jobs ++ [job])%list else jobs).
Proof.
  intros Hn. unfold loop_body, bind, lift, keeps. rewrite Hn. cbn.
  destruct (location_skips order location job); [reflexivity|].
  destruct (remote_skips remote job); reflexivity.
Qed.

Lemma loop_body_raises (item : pyval) (jobs : list Job.t) :
  normalize item = None ->
  loop_body order location remote item jobs = (Raised, jobs).
Proof.
  intros Hn. unfold loop_body, bind, lift. now rewrite Hn.
Qed.

Lemma for_each_loop (items : list pyval) (jobs : list Job.t) :
  for_each items (loop_body order location remote) jobs
  = ((if snd (kept order location remote items) then Raised else Ok tt),
     (jobs ++ fst (kept order location remote items))%list).
Proof.
  revert jobs. induction items as [|item rest IH]; intros jobs.
  - cbn. now rewrite app_nil_r.
  - cbn [for_each kept]. unfold bind at 1.
    destruct (normalize item) as [job|] eqn:Hn.
    + rewrite (loop_body_kept _ _ _ Hn), IH.
      destruct (kept order location remote rest) as [js raised].
      destruct (keeps order location remote job); cbn.
      * now rewrite <- app_assoc.
      * reflexivity.
    + rewrite (loop_body_raises _ _ Hn). cbn. now rewrite app_nil_r.
Qed.
End Loop.

Section Run.
  Variable order : SetOrder.
  Variable upstream : provider.
  Variables query location category job_type : option string.
  Variable remote : option bool.
  Variable limit : Z.

Let reply := upstream (remotive_params query category job_type).

Lemma fetched_eq :
  fetched order upstream query location category job_type remote
  = match listing_of reply with
    | Some items => fst (kept order location remote items)
    | None => []
    end.
Proof.
  unfold fetched, try_body, listing_of. subst reply.
  destruct (upstream _) as [|ok json]; [reflexivity|].
  destruct ok; [|reflexivity].
  destruct json as [data|]; [|reflexivity].
  unfold bind at 1. cbn [lift ret].
  destruct data; try reflexivity.
  unfold bind at 1. cbn [lift ret].
  destruct (py_iter _) as [items|]; [|reflexivity].
  unfold bind at 1. cbn [lift ret].
  now rewrite for_each_loop.
Qed.

Lemma assemble_run :
  assemble order upstream query location category job_type remote []
  = (Ok tt,
     let jobs := fetched order upstream query location category job_type
                         remote in
     match jobs with
     | [] => if given query || given location
             then fallback_jobs query location else []
     | _ => jobs
     end).
Proof.
  unfold assemble, fetched, try_pass, current, bind. cbn [snd].
  destruct (snd (try_body _ _ _ _ _ _ _ [])) as [|j js].
  - cbn [andb]. destruct (given query || given location).
    + now rewrite fallback_run.
    + reflexivity.
  - reflexivity.
Qed.

Lemma assembled_eq :
  assembled order upstream query location category job_type remote
  = let jobs := fetched order upstream query location category job_type
                        remote in
    match jobs with
    | [] => if given query || given location
            then fallback_jobs query location else []
    | _ => jobs
    end.
Proof. unfold assembled. now rewrite assemble_run. Qed.

Lemma search_jobs_run :
  search_jobs order upstream query location category job_type remote limit
  = Ok (slice_to (assembled order upstream query location category
                            job_type remote) limit).
Proof.
  unfold search_jobs, assembled, bind, current, ret.
  now rewrite assemble_run.
Qed.
End Run.

End HandlerFacts.

(** ** Failures of the fetch *)

Section Failures.
  Context {L : Library}.
  Variable order : SetOrder.
  Variable upstream : provider.
  Variables query location category job_type : option string.
  Variable remote : option bool.
  Variable limit : Z.

Let reply := upstream (remotive_params query category job_type).
Let jobs := fetched order upstream query location category job_type remote.

(** C1 (amended). Every failure of the fetch is swallowed: the handler
    raises nothing and returns a list of jobs.  A network error, a
    non-success status, a body that does not decode, a body that is not an
    object or whose [jobs] cannot be iterated leave zero fetched records;
    a record that cannot be normalized ends the fetch and leaves the
    records kept before it. *)
Theorem fetch_failure_swallowed :
  (exists out,
     search_jobs order upstream query location category job_type remote limit
     = Ok out) /\
  (reply = ConnectionError -> jobs = []) /\
  (forall json, reply = Reply false json -> jobs = []) /\
  (reply = Reply true None -> jobs = []) /\
  (forall data, reply = Reply true (Some data) ->
                (forall kv, data <> PDict kv) -> jobs = []) /\
  (forall kv, reply = Reply true (Some (PDict kv)) ->
              py_iter (dict_get kv "jobs" (PList [])) = None -> jobs = []) /\
  (forall kv items, reply = Reply true (Some (PDict kv)) ->
                    py_iter (dict_get kv "jobs" (PList [])) = Some items ->
                    jobs = fst (kept order location remote items)).
Proof.
  split; [eexists; apply search_jobs_run|].
  subst jobs. rewrite fetched_eq. fold reply.
  repeat split.
  - intros ->. reflexivity.
  - intros json ->. reflexivity.
  - intros ->. reflexivity.
  - intros data -> Hnd. destruct data; try reflexivity.
    now elim (Hnd kv).
  - intros kv -> Hit. cbn. now rewrite Hit.
  - intros kv items -> Hit. cbn. now rewrite Hit.
Qed.

End Failures.

(** The damaged feed under both libraries: the second record raises, the
    first stays in [jobs] and is returned. *)
Lemma damaged_feed_keeps_first_job :
  fetch_raised source_order damaged_feed None None None None None (L := pydantic2)
    = true /\
  fetched source_order damaged_feed None None None None None (L := pydantic2)
    = [job_1] /\
  search_jobs source_order damaged_feed None None None None None 50 (L := pydantic2)
    = Ok [job_1] /\
  fetch_raised source_order damaged_feed None None None None None (L := pydantic1)
    = true /\
  fetched source_order damaged_feed None None None None None (L := pydantic1)
    = [job_1].
Proof. repeat split; vm_compute; reflexivity. Qed.

Lemma fetch_failure_swallowed_witness :
  damaged_feed (remotive_params None None None)
    = Reply true (Some (PDict [("jobs", PList [posting_1; posting_without_url])]))
  /\ py_iter (dict_get [("jobs", PList [posting_1; posting_without_url])]
                       "jobs" (PList []))
     = Some [posting_1; posting_without_url]
  /\ fetched source_order damaged_feed None None None None None (L := pydantic2)
     = fst (kept source_order None None [posting_1; posting_without_url]
                 (L := pydantic2)).
Proof.
  split; [reflexivity|]. split; [reflexivity|].
  apply (proj2 (proj2 (proj2 (proj2 (proj2 (proj2
    (fetch_failure_swallowed (L := pydantic2) source_order damaged_feed
       None None None None None 50)))))) _ _ eq_refl eq_refl).
Defined.

(** ** Fallback and truncation *)

Section Assembly.
  Context {L : Library}.
  Variable order : SetOrder.
  Variable upstream : provider.
  Variables query location category job_type : option string.
  Variable remote : option bool.

Let jobs := fetched order upstream query location category job_type remote.
Let out := assembled order upstream query location category job_type remote.

Lemma assembled_cases :
  (jobs = [] /\ (supplied query \/ supplied location) /\
   out = fallback_jobs query location)
  \/ (~ (jobs = [] /\ (supplied query \/ supplied location)) /\ out = jobs).
Proof.
  subst out jobs. rewrite assembled_eq. cbv zeta.
  destruct (fetched _ _ _ _ _ _ _) as [|j js].
  - destruct (given query) eqn:Hq.
    + left. apply given_iff in Hq. auto.
    + destruct (given location) eqn:Hl; cbn [orb].
      * left. apply given_iff in Hl. auto.
      * right. apply given_false_iff in Hq, Hl. split; [|reflexivity].
        intros [_ [H|H]]; contradiction.
  - right. split; [|reflexivity]. intros [H _]. discriminate.
Qed.

(** C4. The fallback entries are added exactly when the filtered list is
    empty and a non-empty [query] or [location] was supplied; with the
    provider unreachable and neither supplied the handler returns the
    empty list. *)
Theorem fallback_iff :
  (out = (jobs ++ fallback_jobs query location)%list
   <-> jobs = [] /\ (supplied query \/ supplied location)) /\
  (out = jobs <-> ~ (jobs = [] /\ (supplied query \/ supplied location))) /\
  (forall limit,
     search_jobs order unreachable None None category job_type remote limit
     = Ok []).
Proof.
  split; [split|split; [split|]].
  - intros Heq. destruct assembled_cases as [[Hj [Hs _]]|[_ Ho]]; [auto|].
    rewrite Ho in Heq. apply (f_equal (@List.length _)) in Heq.
    rewrite length_app in Heq. cbn in Heq. lia.
  - intros [Hj Hs]. destruct assembled_cases as [[_ [_ Ho]]|[Hn _]].
    + now rewrite Ho, Hj.
    + elim Hn. auto.
  - intros Heq Hc. destruct assembled_cases as [[Hj [_ Ho]]|[Hn _]]; [|auto].
    rewrite Ho, Hj in Heq. discriminate.
  - intros Hn. destruct assembled_cases as [[Hj [Hs _]]|[_ Ho]]; [|exact Ho].
    elim Hn. auto.
  - intros limit. rewrite search_jobs_run, assembled_eq.
    unfold slice_to. cbn. now destruct (limit <? 0)%Z, (Z.to_nat limit).
Qed.

(** C6. For a limit between 1 and 200 the handler returns the first
    [limit] entries of the assembled list, in their order: a prefix of it
    of length at most [limit]. *)
Theorem result_is_prefix (limit : Z) :
  (1 <= limit <= 200)%Z ->
  exists returned rest,
    search_jobs order upstream query location category job_type remote limit
    = Ok returned /\
    returned = firstn (Z.to_nat limit) out /\
    out = (returned ++ rest)%list /\
    (Z.of_nat (List.length returned) <= limit)%Z.
Proof.
  intros Hl.
  exists (firstn (Z.to_nat limit) out), (skipn (Z.to_nat limit) out).
  rewrite search_jobs_run. fold out. unfold slice_to.
  destruct (Z.ltb_spec limit 0); [lia|].
  split; [reflexivity|]. split; [reflexivity|]. split.
  - now rewrite firstn_skipn.
  - rewrite length_firstn. lia.
Qed.

End Assembly.

Lemma fallback_iff_witness :
  assembled source_order unreachable (Some "engineer") None None None None
            (L := pydantic2)
  = (fetched source_order unreachable (Some "engineer") None None None None
             (L := pydantic2)
     ++ fallback_jobs (Some "engineer") None)%list.
Proof.
  apply (proj2 (proj1 (fallback_iff (L := pydantic2) source_order unreachable
                         (Some "engineer") None None None None))).
  split; [reflexivity|].
  left. exists "engineer". split; [reflexivity | discriminate].
Defined.

Lemma result_is_prefix_witness :
  (1 <= 2 <= 200)%Z /\
  exists returned rest,
    search_jobs source_order unreachable (Some "engineer") None None None None 2
                (L := pydantic2)
    = Ok returned /\
    returned = firstn (Z.to_nat 2)
                 (assembled source_order unreachable (Some "engineer") None
                            None None None (L := pydantic2)) /\
    assembled source_order unreachable (Some "engineer") None None None None
              (L := pydantic2)
    = (returned ++ rest)%list /\
    (Z.of_nat (List.length returned) <= 2)%Z.
Proof.
  split; [lia|].
  apply (result_is_prefix (L := pydantic2) source_order unreachable
           (Some "engineer") None None None None 2).
  lia.
Defined.

(** ** The filters *)

Section Filters.
  Context {L : Library}.
  Import PyStrFacts.

Lemma any_synonym_iff (order : SetOrder) (job : Job.t) :
  existsb (fun s => PyStr.contains s (PyStr.lower (or_empty (Job.location job))))
          (iteration order) = true
  <-> mentions_synonym job.
Proof.
  rewrite (existsb_perm _ _ _ (iteration_perm order)), existsb_exists.
  unfold mentions_synonym.
  split; intros [s [Hin Hc]]; exists s; (split; [exact Hin|]);
    now apply contains_iff.
Qed.

Lemma location_skips_none (order : SetOrder) (job : Job.t) :
  location_skips order None job = false.
Proof. reflexivity. Qed.

Lemma location_skips_iff (order : SetOrder) (loc : string) (job : Job.t) :
  location_skips order (Some loc) job = false <-> location_matches loc job.
Proof.
  unfold location_skips, location_matches, given. cbn [of_opt truthy].
  destruct (String.eqb_spec loc "") as [->|Hne]; cbn [negb].
  - split; [intros _|reflexivity].
    left. exists "", (PyStr.lower (or_empty (Job.location job))). reflexivity.
  - destruct (PyStr.contains _ _) eqn:Hc; cbn [negb].
    + split; [intros _|reflexivity]. left. now apply contains_iff.
    + rewrite negb_false_iff, andb_true_iff, mem_iff, any_synonym_iff.
      split; [now right|].
      intros [Hs|H]; [|exact H].
      apply contains_iff in Hs. congruence.
Qed.

Lemma remote_skips_iff (job : Job.t) :
  remote_skips (Some true) job = false <-> mentions_synonym job.
Proof.
  unfold remote_skips. rewrite negb_false_iff.
  apply (any_synonym_iff source_order).
Qed.

Lemma remote_skips_off (remote : option bool) (job : Job.t) :
  remote <> Some true -> remote_skips remote job = false.
Proof.
  intros Hr. destruct remote as [[|]|]; [congruence | reflexivity..].
Qed.

Lemma location_skips_order (o1 o2 : SetOrder) (location : option string)
  (job : Job.t) :
  location_skips o1 location job = location_skips o2 location job.
Proof.
  unfold location_skips.
  rewrite (existsb_perm _ (iteration o1) (iteration o2)); [reflexivity|].
  eapply Permutation_trans;
    [apply iteration_perm | apply Permutation_sym, iteration_perm].
Qed.

Lemma kept_order (o1 o2 : SetOrder) (location : option string)
  (remote : option bool) (items : list pyval) :
  kept o1 location remote items = kept o2 location remote items.
Proof.
  induction items as [|item rest IH]; [reflexivity|].
  cbn [kept]. rewrite IH.
  destruct (normalize item) as [job|]; [|reflexivity].
  unfold keeps. now rewrite (location_skips_order o1 o2).
Qed.

Lemma append_changes (job : Job.t) (jobs : list Job.t) :
  (jobs ++ [job])%list <> jobs.
Proof.
  intros H. apply (f_equal (@List.length _)) in H.
  rewrite length_app in H. cbn in H. lia.
Qed.

(** C8. The handler is a function of its parameters and of the provider's
    answer: two runs with the same parameters and the same provider return
    the same list, whatever order each run iterates the synonym set in. *)
Theorem search_jobs_deterministic (o1 o2 : SetOrder) (upstream : provider)
  (query location category job_type : option string) (remote : option bool)
  (limit : Z) :
  search_jobs o1 upstream query location category job_type remote limit
  = search_jobs o2 upstream query location category job_type remote limit.
Proof.
  rewrite !search_jobs_run, !assembled_eq, !fetched_eq.
  destruct (listing_of _) as [items|]; [|reflexivity].
  now rewrite (kept_order o1 o2).
Qed.

Lemma loop_body_outcome (order : SetOrder) (location : option string)
  (remote : option bool) (item : pyval) (job : Job.t) (jobs : list Job.t) :
  normalize item = Some job ->
  loop_body order location remote item jobs
  = (Ok tt, if location_skips order location job then jobs
            else if remote_skips remote job then jobs
                 else (jobs ++ [job])%list).
Proof.
  intros Hn. rewrite (loop_body_kept _ _ _ _ _ _ Hn). unfold keeps.
  now destruct (location_skips order location job), (remote_skips remote job).
Qed.

Lemma remote_passes_iff (remote : option bool) (job : Job.t) :
  remote_skips remote job = false
  <-> (remote = Some true -> mentions_synonym job).
Proof.
  destruct remote as [[|]|].
  - rewrite remote_skips_iff. split; [auto|]. intros H. now apply H.
  - split; [discriminate | reflexivity].
  - split; [discriminate | reflexivity].
Qed.

Lemma berlin_mentions_none (job : Job.t) :
  Job.location job = Some "Berlin, Germany" -> ~ mentions_synonym job.
Proof.
  intros Hloc [s [Hin Hs]].
  rewrite Hloc in Hs. apply contains_iff in Hs.
  cbn in Hin. decompose [or] Hin; subst; try discriminate; contradiction.
Qed.

Lemma anywhere_mentions_one (job : Job.t) :
  Job.location job = Some "Anywhere in the World" -> mentions_synonym job.
Proof.
  intros Hloc. exists "anywhere". split; [cbn; auto|].
  rewrite Hloc. apply contains_iff. reflexivity.
Qed.

(** C2. With a [location] parameter, a normalized record passes the
    location filter exactly when the lower-cased parameter is a substring
    of its lower-cased location (empty when absent), or the parameter,
    lower-cased and trimmed, is a remote synonym and the lower-cased
    location mentions one; the loop appends the record exactly when it
    passes this filter and the remote filter, and leaves the list alone
    when it does not pass.  "Anywhere in the World" is kept under the
    filter "remote". *)
Theorem location_filter_iff (order : SetOrder) (loc : string)
  (remote : option bool) (item : pyval) (job : Job.t) (jobs : list Job.t) :
  normalize item = Some job ->
  (location_skips order (Some loc) job = false <-> location_matches loc job) /\
  (loop_body order (Some loc) remote item jobs = (Ok tt, (jobs ++ [job])%list)
   <-> location_matches loc job /\
       (remote = Some true -> mentions_synonym job)) /\
  (~ location_matches loc job ->
   loop_body order (Some loc) remote item jobs = (Ok tt, jobs)) /\
  (Job.location job = Some "Anywhere in the World" ->
   loop_body order (Some "remote") remote item jobs
   = (Ok tt, (jobs ++ [job])%list)).
Proof.
  intros Hn.
  split; [apply location_skips_iff|]. split; [|split].
  - rewrite (loop_body_outcome _ _ _ _ _ _ Hn).
    rewrite <- (location_skips_iff order), <- remote_passes_iff.
    destruct (location_skips order (Some loc) job).
    + split; [|intros [H _]; discriminate].
      intros H. injection H as H. symmetry in H. now apply append_changes in H.
    + destruct (remote_skips remote job).
      * split; [|intros [_ H]; discriminate].
        intros H. injection H as H. symmetry in H.
        now apply append_changes in H.
      * split; auto.
  - intros Hm. rewrite (loop_body_outcome _ _ _ _ _ _ Hn).
    destruct (location_skips order (Some loc) job) eqn:Hs; [reflexivity|].
    now apply location_skips_iff in Hs.
  - intros Hloc. rewrite (loop_body_outcome _ _ _ _ _ _ Hn).
    pose proof (anywhere_mentions_one job Hloc) as Hm.
    replace (location_skips order (Some "remote") job) with false.
    + replace (remote_skips remote job) with false; [reflexivity|].
      symmetry. apply remote_passes_iff. auto.
    + symmetry. apply location_skips_iff. right. split; [cbn; auto | exact Hm].
Qed.

(** C3. With [remote=true] a normalized record is appended only if its
    lower-cased location mentions a remote synonym (and it passed the
    location filter), and is dropped otherwise; "Berlin, Germany" is
    dropped.  With [remote] false or absent the remote filter drops
    nothing: the location filter alone decides. *)
Theorem remote_filter_iff (order : SetOrder) (location : option string)
  (remote : option bool) (item : pyval) (job : Job.t) (jobs : list Job.t) :
  normalize item = Some job ->
  (remote_skips (Some true) job = false <-> mentions_synonym job) /\
  (loop_body order location (Some true) item jobs
     = (Ok tt, (jobs ++ [job])%list)
   <-> location_skips order location job = false /\ mentions_synonym job) /\
  (~ mentions_synonym job ->
   loop_body order location (Some true) item jobs = (Ok tt, jobs)) /\
  (Job.location job = Some "Berlin, Germany" ->
   loop_body order location (Some true) item jobs = (Ok tt, jobs)) /\
  (remote <> Some true ->
   remote_skips remote job = false /\
   loop_body order location remote item jobs
   = (Ok tt, if location_skips order location job
             then jobs else (jobs ++ [job])%list)).
Proof.
  intros Hn.
  assert (Hdrop : ~ mentions_synonym job ->
                  loop_body order location (Some true) item jobs = (Ok tt, jobs)).
  { intros Hm. rewrite (loop_body_outcome _ _ _ _ _ _ Hn).
    destruct (location_skips order location job); [reflexivity|].
    destruct (remote_skips (Some true) job) eqn:Hs; [reflexivity|].
    now apply remote_skips_iff in Hs. }
  split; [apply remote_skips_iff|]. split; [|split; [|split]].
  - rewrite (loop_body_outcome _ _ _ _ _ _ Hn), <- remote_skips_iff.
    destruct (location_skips order location job).
    + split; [|intros [H _]; discriminate].
      intros H. injection H as H. symmetry in H. now apply append_changes in H.
    + destruct (remote_skips (Some true) job).
      * split; [|intros [_ H]; discriminate].
        intros H. injection H as H. symmetry in H.
        now apply append_changes in H.
      * split; auto.
  - exact Hdrop.
  - intros Hloc. apply Hdrop. now apply berlin_mentions_none.
  - intros Hr. rewrite (loop_body_outcome _ _ _ _ _ _ Hn).
    now rewrite (remote_skips_off _ _ Hr).
Qed.

End Filters.

(** ** Normalization *)

Section Normalization.
  Context {L : Library}.

Lemma Job_new_inv (id title company location type salary url source tags
                   description : pyval) (job : Job.t) :
  Job_new id title company location type salary url source tags description
  = Some job ->
  validate_str id = Some (Job.id job) /\
  validate_str title = Some (Job.title job) /\
  validate_optional validate_str company = Some (Job.company job) /\
  validate_optional validate_str location = Some (Job.location job) /\
  validate_optional validate_str type = Some (Job.type job) /\
  validate_optional validate_str salary = Some (Job.salary job) /\
  validate_str url = Some (Job.url job) /\
  validate_str source = Some (Job.source job) /\
  validate_optional validate_list_str tags = Some (Job.tags job) /\
  validate_optional validate_str description = Some (Job.description job).
Proof.
  unfold Job_new.
  destruct (validate_str id); [|discriminate].
  destruct (validate_str title); [|discriminate].
  destruct (validate_optional validate_str company); [|discriminate].
  destruct (validate_optional validate_str location); [|discriminate].
  destruct (validate_optional validate_str type); [|discriminate].
  destruct (validate_optional validate_str salary); [|discriminate].
  destruct (validate_str url); [|discriminate].
  destruct (validate_str source); [|discriminate].
  destruct (validate_optional validate_list_str tags); [|discriminate].
  destruct (validate_optional validate_str description); [|discriminate].
  intros H. injection H as <-. cbn. repeat (split; [reflexivity|]).
  reflexivity.
Qed.

Lemma validate_each_strs (ss : list string) :
  validate_each (map PStr ss) = Some ss.
Proof.
  induction ss as [|s ss IH]; [reflexivity|].
  cbn. now rewrite validate_str_str, IH.
Qed.

Lemma optional_carried (v : pyval) (field : option string) :
  validate_optional validate_str v = Some field -> carried v field.
Proof.
  intros H. split.
  - intros ->. cbn in H. congruence.
  - intros s ->. cbn in H. rewrite validate_str_str in H. cbn in H.
    congruence.
Qed.

Lemma optional_list_carried (v : pyval) (field : option (list string)) :
  validate_optional validate_list_str v = Some field -> carried_list v field.
Proof.
  intros H. split.
  - intros ->. cbn in H. congruence.
  - intros ss ->. cbn in H. rewrite validate_each_strs in H. cbn in H.
    congruence.
Qed.

Lemma optional_accepts (v : pyval) :
  str_or_null v = true ->
  exists field, validate_optional validate_str v = Some field.
Proof.
  destruct v; try discriminate; intros _.
  - now exists None.
  - exists (Some s). cbn. now rewrite validate_str_str.
Qed.

Lemma strs_are_mapped (l : list pyval) :
  forallb (fun x => match x with PStr _ => true | _ => false end) l = true ->
  exists ss, l = map PStr ss.
Proof.
  induction l as [|v l IH]; cbn.
  - intros _. now exists [].
  - destruct v; try discriminate. intros H.
    destruct (IH H) as [ss ->]. now exists (s :: ss).
Qed.

Lemma optional_list_accepts (v : pyval) :
  strs_or_null v = true ->
  exists field, validate_optional validate_list_str v = Some field.
Proof.
  destruct v; try discriminate; cbn.
  - intros _. now exists None.
  - intros H. destruct (strs_are_mapped _ H) as [ss ->].
    exists (Some ss). now rewrite validate_each_strs.
Qed.

Lemma title_accepts (v : pyval) :
  negb (truthy v) || str_or_null v = true ->
  exists t, validate_str (py_or v (PStr "Untitled")) = Some t.
Proof.
  unfold py_or. destruct (truthy v) eqn:Ht; cbn.
  - destruct v; try discriminate. intros _. exists s. apply validate_str_str.
  - intros _. exists "Untitled". apply validate_str_str.
Qed.

Lemma well_formed_normalizes (kv : list (string * pyval)) :
  well_formed kv = true -> exists job, normalize (PDict kv) = Some job.
Proof.
  unfold well_formed. rewrite !andb_true_iff.
  intros (((((((Hu & Ht) & Hc) & Hl) & Hty) & Hs) & Htg) & Hd).
  unfold normalize, Job_new. rewrite !validate_str_str.
  destruct (title_accepts _ Ht) as [t ->].
  destruct (optional_accepts _ Hc) as [c ->].
  destruct (optional_accepts _ Hl) as [l ->].
  destruct (optional_accepts _ Hty) as [ty ->].
  destruct (optional_accepts _ Hs) as [sa ->].
  destruct (optional_list_accepts _ Htg) as [tg ->].
  destruct (optional_accepts _ Hd) as [d ->].
  destruct (dict_get kv "url" PNone); try discriminate.
  rewrite validate_str_str. eauto.
Qed.

(** C7. Normalization maps the provider's fields onto [Job] one by one:
    [title] is "Untitled" when the record has none, a string field or a
    [null] is carried over as it is ([company] from [company_name],
    [location] from [candidate_required_location], [type] from [job_type],
    and [salary], [tags], [description], [url] under their own names), and
    every record shaped as the provider documents it is normalized. *)
Theorem normalize_maps_fields (kv : list (string * pyval)) :
  (forall job, normalize (PDict kv) = Some job ->
     Job.source job = "Remotive" /\
     (dict_lookup kv "title" = None -> Job.title job = "Untitled") /\
     (forall s, dict_get kv "title" PNone = PStr s -> s <> "" ->
                Job.title job = s) /\
     (forall s, dict_get kv "url" PNone = PStr s -> Job.url job = s) /\
     carried (dict_get kv "company_name" PNone) (Job.company job) /\
     carried (dict_get kv "candidate_required_location" PNone)
             (Job.location job) /\
     carried (dict_get kv "job_type" PNone) (Job.type job) /\
     carried (dict_get kv "salary" PNone) (Job.salary job) /\
     carried_list (dict_get kv "tags" PNone) (Job.tags job) /\
     carried (dict_get kv "description" PNone) (Job.description job)) /\
  (well_formed kv = true -> exists job, normalize (PDict kv) = Some job).
Proof.
  split.
  - intros job Hn. unfold normalize in Hn. apply Job_new_inv in Hn.
    destruct Hn as (_ & Ht & Hc & Hl & Hty & Hs & Hu & Hsrc & Htg & Hd).
    rewrite validate_str_str in Hsrc.
    split; [congruence|]. split; [|split; [|split]].
    + intros Hno. unfold dict_get in Ht. rewrite Hno in Ht. cbn in Ht.
      rewrite validate_str_str in Ht. congruence.
    + intros s Hs' Hne. rewrite Hs' in Ht. unfold py_or in Ht. cbn in Ht.
      destruct (String.eqb_spec s ""); [contradiction|]. cbn in Ht.
      rewrite validate_str_str in Ht. congruence.
    + intros s Hs'. rewrite Hs', validate_str_str in Hu. congruence.
    + auto 10 using optional_carried, optional_list_carried.
  - apply well_formed_normalizes.
Qed.

(** C9. The [id] of a normalized job is [str()] of the provider's [id]
    value; a record without [id] is normalized all the same, and its job
    has the id "None". *)
Theorem normalize_id (kv : list (string * pyval)) :
  (forall job, normalize (PDict kv) = Some job ->
               Job.id job = py_str (dict_get kv "id" PNone)) /\
  (dict_lookup kv "id" = None -> well_formed kv = true ->
   exists job, normalize (PDict kv) = Some job /\ Job.id job = "None").
Proof.
  assert (Hid : forall job, normalize (PDict kv) = Some job ->
                            Job.id job = py_str (dict_get kv "id" PNone)).
  { intros job Hn. unfold normalize in Hn. apply Job_new_inv in Hn.
    destruct Hn as (Hi & _). rewrite validate_str_str in Hi. congruence. }
  split; [exact Hid|].
  intros Hno Hwf.
  destruct (well_formed_normalizes kv Hwf) as [job Hn].
  exists job. split; [exact Hn|].
  rewrite (Hid job Hn). unfold dict_get. now rewrite Hno.
Qed.

End Normalization.

(** ** The fallback entries *)

Section Fallback.
  Context {L : Library}.
  Import PyStrFacts.

(** C5 (amended). When the fallback fires the assembled list is exactly
    the three entries fallback-0, fallback-1, fallback-2, in that order,
    titled Search '<terms>' on Google Jobs, LinkedIn and Indeed, where the
    terms are [query] and [location] joined by one space without what is
    absent, and with search urls in which the spaces of the terms become
    [+], [%20] and [+]; the handler returns the first [limit] of them,
    all three when [limit] is at least 3.  With the provider unreachable,
    query "engineer" and such a limit, the three titles contain
    "engineer". *)
Theorem fallback_entries (order : SetOrder) (upstream : provider)
  (query location category job_type : option string) (remote : option bool)
  (limit : Z) :
  fetched order upstream query location category job_type remote = [] ->
  supplied query \/ supplied location ->
  (0 <= limit)%Z ->
  assembled order upstream query location category job_type remote
    = fallback_jobs query location /\
  joined_terms query location = terms_of query location /\
  map Job.id (fallback_jobs query location)
    = ["fallback-0"; "fallback-1"; "fallback-2"] /\
  search_jobs order upstream query location category job_type remote limit
    = Ok (firstn (Z.to_nat limit) (fallback_jobs query location)) /\
  ((3 <= limit)%Z ->
   search_jobs order upstream query location category job_type remote limit
     = Ok (fallback_jobs query location) /\
   search_jobs order unreachable (Some "engineer") None category job_type
               remote limit
     = Ok [ Job.mk "fallback-0" "Search 'engineer' on Google Jobs" None None
                   None None "https://www.google.com/search?q=engineer+jobs"
                   "Google Jobs" None None;
            Job.mk "fallback-1" "Search 'engineer' on LinkedIn" None None
                   None None
                   "https://www.linkedin.com/jobs/search/?keywords=engineer"
                   "LinkedIn" None None;
            Job.mk "fallback-2" "Search 'engineer' on Indeed" None None
                   None None "https://www.indeed.com/jobs?q=engineer"
                   "Indeed" None None ] /\
   Forall (fun job => PyStr.substring_of "engineer" (Job.title job))
          (fallback_jobs (Some "engineer") None)).
Proof.
  intros Hf Hs Hl.
  assert (Hg : given query || given location = true).
  { apply orb_true_iff. destruct Hs as [H|H]; apply given_iff in H; auto. }
  assert (Ha : assembled order upstream query location category job_type remote
               = fallback_jobs query location).
  { rewrite assembled_eq, Hf. cbv zeta. now rewrite Hg. }
  assert (Hthree : forall n, (3 <= n)%Z -> forall q l,
            firstn (Z.to_nat n) (fallback_jobs q l) = fallback_jobs q l).
  { intros n Hn q l. apply firstn_all2. cbn. lia. }
  assert (Hrun : search_jobs order upstream query location category job_type
                             remote limit
                 = Ok (firstn (Z.to_nat limit) (fallback_jobs query location))).
  { rewrite search_jobs_run, Ha. unfold slice_to.
    destruct (Z.ltb_spec limit 0); [lia | reflexivity]. }
  split; [exact Ha|]. split; [apply joined_terms_eq|].
  split; [reflexivity|]. split; [exact Hrun|].
  intros H3. split; [|split].
  - now rewrite Hrun, Hthree.
  - rewrite search_jobs_run, assembled_eq. cbn. unfold slice_to.
    destruct (Z.ltb_spec limit 0); [lia|].
    apply f_equal. apply (Hthree limit H3 (Some "engineer") None).
  - repeat constructor; apply contains_iff; reflexivity.
Qed.

(** C10. Each entry the fallback appends has the caller's [location]
    parameter as its location, the provider's name ("Google Jobs",
    "LinkedIn", "Indeed", in this order) as its source, and no company,
    type, salary, tags or description. *)
Theorem fallback_fields (query location : option string) (jobs : list Job.t) :
  exists added,
    fallback query location jobs = (Ok tt, (jobs ++ added)%list) /\
    map Job.source added = ["Google Jobs"; "LinkedIn"; "Indeed"] /\
    Forall (fun job =>
              Job.location job = location /\
              Job.company job = None /\ Job.type job = None /\
              Job.salary job = None /\ Job.tags job = None /\
              Job.description job = None) added.
Proof.
  exists (fallback_jobs query location).
  split; [apply fallback_run|]. split; [reflexivity|].
  repeat constructor.
Qed.

End Fallback.

(** With [limit=1] only the first fallback entry is returned. *)
Lemma fallback_cut_by_limit :
  fetched source_order unreachable (Some "engineer") None None None None
          (L := pydantic2) = [] /\
  supplied (Some "engineer") /\
  (1 <= 1 <= 200)%Z /\
  search_jobs source_order unreachable (Some "engineer") None None None None 1
              (L := pydantic2)
  = Ok [ Job.mk "fallback-0" "Search 'engineer' on Google Jobs" None None
                None None "https://www.google.com/search?q=engineer+jobs"
                "Google Jobs" None None ].
Proof.
  split; [reflexivity|]. split.
  - exists "engineer". split; [reflexivity | discriminate].
  - split; [lia | reflexivity].
Qed.

(** ** The theorems at concrete inputs *)

Lemma location_filter_iff_witness :
  normalize posting_1 (L := pydantic2) = Some job_1 /\
  Job.location job_1 = Some "Anywhere in the World" /\
  loop_body source_order (Some "remote") None posting_1 [] (L := pydantic2)
  = (Ok tt, [job_1]).
Proof.
  split; [reflexivity|]. split; [reflexivity|].
  apply (location_filter_iff (L := pydantic2) source_order "remote" None
           posting_1 job_1 [] eq_refl).
  reflexivity.
Defined.

Lemma remote_filter_iff_witness :
  normalize posting_berlin (L := pydantic2) = Some job_berlin /\
  Job.location job_berlin = Some "Berlin, Germany" /\
  loop_body source_order None (Some true) posting_berlin [] (L := pydantic2)
  = (Ok tt, []).
Proof.
  split; [reflexivity|]. split; [reflexivity|].
  apply (remote_filter_iff (L := pydantic2) source_order None None
           posting_berlin job_berlin [] eq_refl).
  reflexivity.
Defined.

Lemma fallback_entries_witness :
  fetched source_order unreachable (Some "engineer") None None None None
          (L := pydantic2) = [] /\
  (supplied (Some "engineer") \/ supplied None) /\
  (0 <= 50)%Z /\
  (3 <= 50)%Z /\
  search_jobs source_order unreachable (Some "engineer") None None None None 50
              (L := pydantic2)
  = Ok (fallback_jobs (Some "engineer") None).
Proof.
  assert (Hs : supplied (Some "engineer") \/ supplied None).
  { left. exists "engineer". split; [reflexivity | discriminate]. }
  assert (H0 : (0 <= 50)%Z) by lia.
  assert (H3 : (3 <= 50)%Z) by lia.
  split; [reflexivity|]. split; [exact Hs|]. split; [exact H0|].
  split; [exact H3|].
  apply (fallback_entries (L := pydantic2) source_order unreachable
           (Some "engineer") None None None None 50 eq_refl Hs H0).
  exact H3.
Defined.

Lemma normalize_maps_fields_witness :
  well_formed fields_1 = true /\
  (exists job, normalize (PDict fields_1) (L := pydantic2) = Some job) /\
  normalize (PDict fields_1) (L := pydantic2) = Some job_1 /\
  Job.source job_1 = "Remotive".
Proof.
  split; [reflexivity|]. split; [|split; [reflexivity|]].
  - apply (normalize_maps_fields (L := pydantic2)). reflexivity.
  - apply (proj1 (normalize_maps_fields (L := pydantic2) fields_1) job_1 eq_refl).
Defined.

Lemma normalize_id_witness :
  dict_lookup fields_bare "id" = None /\
  well_formed fields_bare = true /\
  exists job, normalize (PDict fields_bare) (L := pydantic2) = Some job /\
              Job.id job = "None".
Proof.
  split; [reflexivity|]. split; [reflexivity|].
  apply (normalize_id (L := pydantic2)); reflexivity.
Defined.

(** * Further properties of the handler *)

(** ** The request sent to the provider *)

Lemma given_some (s : string) : given (Some s) = negb (String.eqb s "").
Proof. reflexivity. Qed.

(** X1. The request carries [search], [category] and [job_type], each
    exactly when the matching parameter is a non-empty string and with
    that string as value; no other key is sent (so neither [location] nor
    [remote]), no value is empty and no key occurs twice. *)
Theorem remotive_params_sent (query category job_type : option string) :
  (forall k v,
     In (k, v) (remotive_params query category job_type) <->
     v <> "" /\ ((k = "search" /\ query = Some v) \/
                 (k = "category" /\ category = Some v) \/
                 (k = "job_type" /\ job_type = Some v))) /\
  NoDup (map fst (remotive_params query category job_type)).
Proof.
  unfold remotive_params.
  destruct query as [q|], category as [c|], job_type as [j|];
    rewrite ?given_some;
    repeat match goal with
           | |- context [String.eqb ?s ""] =>
               destruct (String.eqb_spec s ""); subst
           end;
    cbn [negb app map fst]; (split; [intros k v; split|]).
  all: match goal with
       | |- NoDup _ =>
           repeat (constructor; [cbn; intuition discriminate|]); constructor
       | |- In _ _ -> _ =>
           cbn [In]; intros H; decompose [or] H; try contradiction;
           match goal with
           | E : (_, _) = (_, _) |- _ => injection E as <- <-
           end;
           (split; [assumption | auto 6])
       | |- _ /\ _ -> _ =>
           intros [Hv [[-> E]|[[-> E]|[-> E]]]]; cbn [In];
           try discriminate E; injection E as E; subst v;
           try contradiction; auto 6
       end.
Qed.

(** ** The fetch loop *)

Section FetchLoop.
Context {L : Library}.
Import PyStrFacts.

Lemma normalize_source (item : pyval) (job : Job.t) :
  normalize item = Some job -> Job.source job = "Remotive".
Proof.
  destruct item; try discriminate. intros Hn.
  unfold normalize in Hn. apply Job_new_inv in Hn.
  destruct Hn as (_ & _ & _ & _ & _ & _ & _ & Hs & _).
  rewrite validate_str_str in Hs. congruence.
Qed.

Lemma keeps_iff (order : SetOrder) (location : option string)
  (remote : option bool) (job : Job.t) :
  keeps order location remote job = true <->
  (forall loc, location = Some loc -> location_matches loc job) /\
  (remote = Some true -> mentions_synonym job).
Proof.
  unfold keeps. rewrite andb_true_iff, !negb_true_iff, remote_passes_iff.
  destruct location as [loc|].
  - rewrite (location_skips_iff order). split; intros [Hl Hr]; split; auto.
    intros l [= <-]. exact Hl.
  - rewrite location_skips_none. split; intros [_ Hr]; split; auto.
    discriminate.
Qed.

Lemma kept_ext (o o' : SetOrder) (location location' : option string)
  (remote remote' : option bool) (items : list pyval) :
  (forall job, keeps o location remote job = keeps o' location' remote' job) ->
  kept o location remote items = kept o' location' remote' items.
Proof.
  intros Hk. induction items as [|item rest IH]; [reflexivity|].
  cbn [kept]. rewrite IH. destruct (normalize item) as [job|]; [|reflexivity].
  now rewrite Hk.
Qed.

Lemma kept_Forall (order : SetOrder) (location : option string)
  (remote : option bool) (items : list pyval) :
  Forall (fun job => Job.source job = "Remotive" /\
                     keeps order location remote job = true)
         (fst (kept order location remote items)).
Proof.
  induction items as [|item rest IH]; [constructor|].
  cbn [kept]. destruct (normalize item) as [job|] eqn:Hn; [|constructor].
  destruct (kept order location remote rest) as [js raised]. cbn [fst] in *.
  destruct (keeps order location remote job) eqn:Hk; [|exact IH].
  constructor; [|exact IH]. split; [|exact Hk].
  now apply normalize_source in Hn.
Qed.

Lemma kept_filter (order : SetOrder) (location : option string)
  (remote : option bool) (items : list pyval) :
  fst (kept order location remote items)
  = filter (keeps order location remote) (fst (kept order None None items)) /\
  snd (kept order location remote items) = snd (kept order None None items).
Proof.
  induction items as [|item rest IH]; [split; reflexivity|].
  cbn [kept]. destruct (normalize item) as [job|]; [|split; reflexivity].
  destruct (kept order location remote rest) as [js raised].
  destruct (kept order None None rest) as [js0 raised0].
  cbn [fst snd] in *. destruct IH as [-> ->].
  change (keeps order None None job) with true. cbn [filter].
  destruct (keeps order location remote job); split; reflexivity.
Qed.

Lemma kept_cut (order : SetOrder) (location : option string)
  (remote : option bool) (before after : list pyval) (bad : pyval) :
  normalize bad = None ->
  kept order location remote (before ++ bad :: after)
  = (fst (kept order location remote before), true).
Proof.
  intros Hb. induction before as [|item rest IH]; cbn [app kept].
  - now rewrite Hb.
  - destruct (normalize item) as [job|]; [|reflexivity].
    rewrite IH. destruct (kept order location remote rest) as [js raised].
    reflexivity.
Qed.

Lemma fetch_raised_eq (order : SetOrder) (upstream : provider)
  (query location category job_type : option string) (remote : option bool) :
  fetch_raised order upstream query location category job_type remote
  = match upstream (remotive_params query category job_type) with
    | ConnectionError => true
    | Reply false _ => false
    | Reply true json =>
        match listing_of (Reply true json) with
        | Some items => snd (kept order location remote items)
        | None => true
        end
    end.
Proof.
  unfold fetch_raised, try_body, listing_of.
  destruct (upstream _) as [|ok json]; [reflexivity|].
  destruct ok; [|reflexivity].
  destruct json as [data|]; [|reflexivity].
  unfold bind at 1. cbn [lift ret].
  destruct data; try reflexivity.
  unfold bind at 1. cbn [lift ret].
  destruct (py_iter _) as [items|]; [|reflexivity].
  unfold bind at 1. cbn [lift ret].
  rewrite for_each_loop. cbn [fst].
  now destruct (snd (kept order location remote items)).
Qed.

Variable order : SetOrder.
Variable upstream : provider.
Variables query location category job_type : option string.
Variable remote : option bool.

(** X2. Every job the fetch leaves in [jobs] comes from the provider
    (source "Remotive") and passes both filters: it matches the [location]
    parameter when one was given, and its location mentions a remote
    synonym when [remote] is true. *)
Theorem fetched_pass_filters :
  Forall (fun job =>
            Job.source job = "Remotive" /\
            (forall loc, location = Some loc -> location_matches loc job) /\
            (remote = Some true -> mentions_synonym job))
         (fetched order upstream query location category job_type remote).
Proof.
  rewrite fetched_eq. destruct (listing_of _) as [items|]; [|constructor].
  eapply Forall_impl; [|apply kept_Forall].
  intros job [Hs Hk]. split; [exact Hs|]. now apply keeps_iff in Hk.
Qed.

(** X3. The filters only remove: the jobs fetched under [location] and
    [remote] are, in the same order, those of the jobs fetched with no
    filter that pass both, and the body of the [try] statement raises
    under the filters exactly when it raises without them. *)
Theorem fetched_is_filtered :
  fetched order upstream query location category job_type remote
  = filter (keeps order location remote)
           (fetched order upstream query None category job_type None) /\
  fetch_raised order upstream query location category job_type remote
  = fetch_raised order upstream query None category job_type None.
Proof.
  split.
  - rewrite !fetched_eq. destruct (listing_of _) as [items|]; [|reflexivity].
    apply kept_filter.
  - rewrite !fetch_raised_eq.
    destruct (upstream _) as [|[|] json]; try reflexivity.
    destruct (listing_of _) as [items|]; [|reflexivity].
    apply kept_filter.
Qed.

(** X4. A record that cannot be normalized ends the loop: the records
    after it are never looked at, whatever they are, and the list is left
    as the records before it made it. *)
Theorem loop_stops_at_bad_record (before after : list pyval) (bad : pyval)
  (jobs : list Job.t) :
  normalize bad = None ->
  for_each (before ++ bad :: after) (loop_body order location remote) jobs
  = (Raised, snd (for_each before (loop_body order location remote) jobs)).
Proof.
  intros Hb. rewrite !for_each_loop, (kept_cut _ _ _ _ _ _ Hb). reflexivity.
Qed.

End FetchLoop.

(** ** Parameters that change nothing *)

Section Neutral.
Context {L : Library}.
Import PyStrFacts.
Variable order : SetOrder.
Variable upstream : provider.
Variables query location category job_type : option string.
Variable remote : option bool.
Variable limit : Z.

(** X5. [remote=false] is the same request as no [remote] at all: the
    handler returns the same list. *)
Theorem remote_false_is_absent :
  search_jobs order upstream query location category job_type (Some false) limit
  = search_jobs order upstream query location category job_type None limit.
Proof.
  rewrite !search_jobs_run, !assembled_eq, !fetched_eq.
  destruct (listing_of _) as [items|]; [|reflexivity].
  rewrite (kept_ext order order location location (Some false) None);
    [reflexivity|].
  intros job. reflexivity.
Qed.

(** X6. An empty [query], [category] or [job_type] is the same request as
    an absent one, for the provider and for the caller; an empty
    [location] fetches what an absent one fetches. *)
Theorem empty_is_absent :
  search_jobs order upstream (Some "") location category job_type remote limit
  = search_jobs order upstream None location category job_type remote limit /\
  search_jobs order upstream query location (Some "") job_type remote limit
  = search_jobs order upstream query location None job_type remote limit /\
  search_jobs order upstream query location category (Some "") remote limit
  = search_jobs order upstream query location category None remote limit /\
  fetched order upstream query (Some "") category job_type remote
  = fetched order upstream query None category job_type remote.
Proof.
  assert (Hq : remotive_params (Some "") category job_type
               = remotive_params None category job_type) by reflexivity.
  assert (Hc : remotive_params query (Some "") job_type
               = remotive_params query None job_type).
  { unfold remotive_params. now destruct query. }
  assert (Hj : remotive_params query category (Some "")
               = remotive_params query category None).
  { unfold remotive_params. cbn. now rewrite !app_nil_r. }
  assert (Ht : terms_of (Some "") location = terms_of None location).
  { destruct location as [l|]; [|reflexivity]. cbn.
    now destruct (String.eqb_spec l ""); subst. }
  split; [|split; [|split]].
  - rewrite !search_jobs_run, !assembled_eq, !fetched_eq, Hq.
    unfold fallback_jobs. rewrite Ht. reflexivity.
  - rewrite !search_jobs_run, !assembled_eq, !fetched_eq, Hc. reflexivity.
  - rewrite !search_jobs_run, !assembled_eq, !fetched_eq, Hj. reflexivity.
  - rewrite !fetched_eq.
    destruct (listing_of _) as [items|]; [|reflexivity].
    rewrite (kept_ext order order (Some "") None remote remote);
      [reflexivity|].
    intros job. reflexivity.
Qed.

(** X7. Under [remote=true] a [location] that is itself a remote synonym
    (once lower-cased and trimmed) filters nothing more: the fetch keeps
    the same jobs as with no [location]. *)
Theorem synonym_location_redundant (loc : string) :
  In (PyStr.strip (PyStr.lower loc)) remote_synonyms ->
  fetched order upstream query (Some loc) category job_type (Some true)
  = fetched order upstream query None category job_type (Some true).
Proof.
  intros Hs. rewrite !fetched_eq.
  destruct (listing_of _) as [items|]; [|reflexivity].
  rewrite (kept_ext order order (Some loc) None (Some true) (Some true));
    [reflexivity|].
  intros job. unfold keeps. rewrite location_skips_none. cbn [negb andb].
  destruct (remote_skips (Some true) job) eqn:Hr.
  - now rewrite andb_false_r.
  - apply remote_skips_iff in Hr.
    replace (location_skips order (Some loc) job) with false; [reflexivity|].
    symmetry. apply location_skips_iff. right. now split.
Qed.

End Neutral.

Lemma synonym_location_redundant_witness :
  In (PyStr.strip (PyStr.lower "  Worldwide ")) remote_synonyms /\
  fetched source_order damaged_feed None (Some "  Worldwide ") None None
          (Some true) (L := pydantic2)
  = fetched source_order damaged_feed None None None None (Some true)
            (L := pydantic2).
Proof.
  assert (Hs : In (PyStr.strip (PyStr.lower "  Worldwide ")) remote_synonyms).
  { cbn. auto. }
  split; [exact Hs|].
  apply (synonym_location_redundant (L := pydantic2) source_order damaged_feed
           None None None "  Worldwide " Hs).
Defined.

(** ** Truncation *)

Section Truncation.
Context {L : Library}.
Variable order : SetOrder.
Variable upstream : provider.
Variables query location category job_type : option string.
Variable remote : option bool.

Lemma slice_to_nonneg {A : Type} (l : list A) (stop : Z) :
  (0 <= stop)%Z -> slice_to l stop = firstn (Z.to_nat stop) l.
Proof.
  intros H. unfold slice_to. destruct (Z.ltb_spec stop 0); [lia | reflexivity].
Qed.

Lemma slice_to_firstn {A : Type} (l : list A) (stop : Z) :
  exists n, slice_to l stop = firstn n l.
Proof. unfold slice_to. destruct (stop <? 0)%Z; eauto. Qed.

(** X8. Asking for more never changes what comes first: for
    [0 <= small <= large] the list returned under [small] is the first
    [small] entries of the list returned under [large]; and a limit that
    reaches the number of assembled jobs returns them all. *)
Theorem limit_monotone (small large : Z) :
  (0 <= small <= large)%Z ->
  exists few many,
    search_jobs order upstream query location category job_type remote small
    = Ok few /\
    search_jobs order upstream query location category job_type remote large
    = Ok many /\
    few = firstn (Z.to_nat small) many /\
    ((Z.of_nat (List.length
                  (assembled order upstream query location category job_type
                             remote)) <= large)%Z ->
     many = assembled order upstream query location category job_type remote).
Proof.
  intros Hl. rewrite !search_jobs_run, !slice_to_nonneg by lia.
  eexists. eexists. split; [reflexivity|]. split; [reflexivity|]. split.
  - rewrite firstn_firstn. f_equal. lia.
  - intros Hn. apply firstn_all2. lia.
Qed.

(** X12. The returned list has one origin: either every job in it comes
    from the provider (source "Remotive"), or nothing was fetched and it
    is a prefix of the three fallback entries. A provider job and a
    fallback entry never appear together. *)
Theorem result_one_origin (limit : Z) :
  exists out,
    search_jobs order upstream query location category job_type remote limit
    = Ok out /\
    (Forall (fun job => Job.source job = "Remotive") out \/
     (fetched order upstream query location category job_type remote = [] /\
      exists n, out = firstn n (fallback_jobs query location))).
Proof.
  rewrite search_jobs_run, assembled_eq. cbv zeta.
  eexists. split; [reflexivity|].
  destruct (slice_to_firstn
              (match fetched order upstream query location category job_type
                             remote with
               | [] => if given query || given location
                       then fallback_jobs query location else []
               | _ :: _ =>
                   fetched order upstream query location category job_type
                           remote
               end) limit) as [n ->].
  pose proof (fetched_pass_filters order upstream query location category
                job_type remote) as Hf.
  destruct (fetched order upstream query location category job_type remote)
    as [|j js] eqn:He.
  - destruct (given query || given location).
    + right. split; [reflexivity|]. now exists n.
    + left. rewrite firstn_nil. constructor.
  - left. apply Forall_forall. intros job Hin.
    rewrite <- (firstn_skipn n (j :: js)) in Hf.
    apply Forall_app in Hf. destruct Hf as [Hf _].
    rewrite Forall_forall in Hf. now apply Hf.
Qed.

(** X13. [limit] is declared as [Query(50, ge=1, le=200)]: a request
    without [limit] runs the handler with 50, a value outside 1..200 never
    reaches it, and so no request is answered with more than 200 jobs, nor
    with more than 50 when it names no limit. *)
Theorem limit_param_bounds (raw : option Z) :
  (limit_param raw = None <->
   exists n, raw = Some n /\ (n < 1 \/ 200 < n)%Z) /\
  (forall limit, limit_param raw = Some limit ->
     (1 <= limit <= 200)%Z /\
     (raw = None -> limit = 50%Z) /\
     exists out,
       search_jobs order upstream query location category job_type remote limit
       = Ok out /\
       List.length out <= 200 /\
       (raw = None -> List.length out <= 50)).
Proof.
  split.
  - unfold limit_param. destruct raw as [n|].
    + destruct (Z.leb_spec 1 n), (Z.leb_spec n 200); cbn; split;
        try discriminate; try (intros _; exists n; split; [reflexivity|lia]);
        intros [m [[= <-] Hm]]; (reflexivity || lia).
    + split; [discriminate | intros [n [H _]]; discriminate].
  - intros limit Hp.
    assert (Hb : (1 <= limit <= 200)%Z /\ (raw = None -> limit = 50%Z)).
    { unfold limit_param in Hp. destruct raw as [n|].
      - destruct (Z.leb_spec 1 n), (Z.leb_spec n 200); cbn in Hp;
          try discriminate. injection Hp as <-. split; [lia | discriminate].
      - injection Hp as <-. split; [lia | reflexivity]. }
    destruct Hb as [Hr Hd]. split; [exact Hr|]. split; [exact Hd|].
    rewrite search_jobs_run, slice_to_nonneg by lia.
    eexists. split; [reflexivity|].
    pose proof (firstn_le_length (Z.to_nat limit)
                  (assembled order upstream query location category job_type
                             remote)) as Hlen.
    split; [lia|]. intros Hn. specialize (Hd Hn). lia.
Qed.

End Truncation.

Lemma limit_monotone_witness :
  (0 <= 1 <= 3)%Z /\
  search_jobs source_order unreachable (Some "engineer") None None None None 1
              (L := pydantic2)
  = Ok (firstn 1 (fallback_jobs (Some "engineer") None)).
Proof.
  assert (H : (0 <= 1 <= 3)%Z) by lia.
  split; [exact H|].
  destruct (limit_monotone (L := pydantic2) source_order unreachable
              (Some "engineer") None None None None 1 3 H)
    as (few & many & Hfew & Hmany & Hcut & _).
  rewrite Hfew, Hcut. apply f_equal.
  change (Ok (fallback_jobs (Some "engineer") None) = Ok many) in Hmany.
  injection Hmany as <-. reflexivity.
Defined.

Lemma limit_param_bounds_witness :
  limit_param (Some 7%Z) = Some 7%Z /\ (1 <= 7 <= 200)%Z.
Proof.
  split; [reflexivity|].
  apply (limit_param_bounds (L := pydantic2) source_order unreachable
           None None None None None (Some 7%Z)).
  reflexivity.
Defined.

(** ** The search urls of the fallback *)

Section Urls.
Import PyStr.

Lemma prefix_empty (t : string) : String.prefix "" t = true.
Proof. now destruct t. Qed.

Lemma contains_space_cons (c : ascii) (t : string) :
  contains " " (String c t) = Ascii.eqb c " " || contains " " t.
Proof.
  cbn [contains]. f_equal. cbn [String.prefix].
  destruct (ascii_dec " " c) as [<-|Hne].
  - apply prefix_empty.
  - destruct (Ascii.eqb_spec c " "); congruence.
Qed.

Lemma contains_space_app (a b : string) :
  contains " " (a ++ b) = contains " " a || contains " " b.
Proof.
  induction a as [|c a IH]; [reflexivity|].
  cbn [String.append]. now rewrite !contains_space_cons, IH, orb_assoc.
Qed.

Lemma replace_no_space (new s : string) :
  contains " " new = false -> contains " " (replace " " new s) = false.
Proof.
  intros Hn. induction s as [|c s IH]; [reflexivity|].
  cbn [replace]. destruct (Ascii.eqb c " ") eqn:Hc.
  - now rewrite contains_space_app, Hn, IH.
  - now rewrite contains_space_cons, Hc, IH.
Qed.

Lemma replace_without_space (new s : string) :
  contains " " s = false -> replace " " new s = s.
Proof.
  induction s as [|c s IH]; [reflexivity|].
  rewrite contains_space_cons, orb_false_iff. intros [Hc Hs].
  cbn [replace]. now rewrite Hc, IH.
Qed.

(** X9. No search url of the fallback contains a space, whatever the
    terms are: every space of the terms is replaced.  Nothing else is
    encoded: terms without a space are copied into the three urls as they
    are. *)
Theorem fallback_urls_have_no_space (query location : option string) :
  Forall (fun entry => contains " " (snd entry) = false)
         (providers query location) /\
  (contains " " (joined_terms query location) = false ->
   map snd (providers query location)
   = [ "https://www.google.com/search?q=" ++ joined_terms query location
         ++ "+jobs";
       "https://www.linkedin.com/jobs/search/?keywords="
         ++ joined_terms query location;
       "https://www.indeed.com/jobs?q=" ++ joined_terms query location ]).
Proof.
  unfold providers. split.
  - repeat constructor; cbn [snd];
      rewrite !contains_space_app, replace_no_space by reflexivity;
      reflexivity.
  - intros Hn. cbn [map snd]. now rewrite !replace_without_space.
Qed.

End Urls.

Lemma fallback_urls_have_no_space_witness :
  PyStr.contains " " (joined_terms (Some "rust&go") None) = false /\
  map snd (providers (Some "rust&go") None)
  = [ "https://www.google.com/search?q=rust&go+jobs";
      "https://www.linkedin.com/jobs/search/?keywords=rust&go";
      "https://www.indeed.com/jobs?q=rust&go" ].
Proof.
  split; [reflexivity|].
  apply (fallback_urls_have_no_space (Some "rust&go") None). reflexivity.
Defined.

(** ** Payloads and records at the edges *)

Section Edges.
Context {L : Library}.
Variable order : SetOrder.
Variable upstream : provider.
Variables query location category job_type : option string.
Variable remote : option bool.

Lemma kept_strings (f : string -> string) (keys : list string) :
  fst (kept order location remote (map (fun k => PStr (f k)) keys)) = [].
Proof. now destruct keys. Qed.

(** X10. Only a JSON array under [jobs] can yield jobs: when the body is
    an object whose [jobs] value is anything else (a string, an object, a
    number, [null]) nothing is fetched; when the object has no [jobs] key
    at all nothing is fetched and nothing is raised. *)
Theorem only_arrays_yield_jobs (kv : list (string * pyval)) :
  upstream (remotive_params query category job_type)
  = Reply true (Some (PDict kv)) ->
  ((forall l, dict_get kv "jobs" (PList []) <> PList l) ->
   fetched order upstream query location category job_type remote = []) /\
  (dict_lookup kv "jobs" = None ->
   fetched order upstream query location category job_type remote = [] /\
   fetch_raised order upstream query location category job_type remote = false).
Proof.
  intros Hu. split.
  - intros Hv. rewrite fetched_eq, Hu. cbn [listing_of].
    destruct (dict_get kv "jobs" (PList [])) as [| | | |s|l|kv']; try reflexivity.
    + cbn [py_iter].
      rewrite <- (map_map (fun c => String c EmptyString) PStr).
      destruct (map _ (list_ascii_of_string s)); reflexivity.
    + now elim (Hv l).
    + cbn [py_iter]. rewrite <- (map_map fst PStr).
      destruct (map fst kv'); reflexivity.
  - intros Hk. rewrite fetched_eq, fetch_raised_eq, Hu. cbn [listing_of].
    unfold dict_get. rewrite Hk. split; reflexivity.
Qed.

(** X11. A title that counts as false ([null], the empty string, 0,
    [false], an empty array or object) is replaced by "Untitled" like a
    missing one, and so a job normalized from a record whose title is a
    string or [null] never has an empty title. *)
Theorem title_never_empty (kv : list (string * pyval)) (job : Job.t) :
  normalize (PDict kv) = Some job ->
  (truthy (dict_get kv "title" PNone) = false -> Job.title job = "Untitled") /\
  (str_or_null (dict_get kv "title" PNone) = true -> Job.title job <> "").
Proof.
  intros Hn. unfold normalize in Hn. apply Job_new_inv in Hn.
  destruct Hn as (_ & Ht & _). unfold py_or in Ht.
  assert (Hf : truthy (dict_get kv "title" PNone) = false ->
               Job.title job = "Untitled").
  { intros Hf. rewrite Hf, validate_str_str in Ht. congruence. }
  split; [exact Hf|].
  intros Hs. destruct (truthy (dict_get kv "title" PNone)) eqn:Htr.
  - destruct (dict_get kv "title" PNone); try discriminate.
    rewrite validate_str_str in Ht. injection Ht as <-.
    intros ->. discriminate.
  - rewrite (Hf eq_refl). discriminate.
Qed.

End Edges.

Lemma only_arrays_yield_jobs_witness :
  keyed_feed (remotive_params None None None)
  = Reply true (Some (PDict [("jobs", PDict [("1", posting_1)])])) /\
  fetched source_order keyed_feed None None None None None (L := pydantic2)
  = [].
Proof.
  split; [reflexivity|].
  apply (proj1 (only_arrays_yield_jobs (L := pydantic2) source_order
                  keyed_feed None None None None None _ eq_refl)).
  intros l. discriminate.
Defined.

Lemma title_never_empty_witness :
  normalize (PDict (("title", PStr "") :: fields_bare)) (L := pydantic2)
  = Some (Job.mk "None" "Untitled" None None None None
                 "https://remotive.com/remote-jobs/9" "Remotive" None None) /\
  Job.title (Job.mk "None" "Untitled" None None None None
                    "https://remotive.com/remote-jobs/9" "Remotive" None None)
  = "Untitled".
Proof.
  split; [reflexivity|].
  apply (proj1 (title_never_empty (L := pydantic2)
                  (("title", PStr "") :: fields_bare) _ eq_refl)).
  reflexivity.
Defined.

(** * The diagnostic endpoint *)

Module DiagnosticsFacts.
Import Diagnostics.

Lemma substring_prefix (n : nat) (s : string) :
  String.length (String.substring 0 n s) <= n /\
  exists rest, s = String.substring 0 n s ++ rest.
Proof.
  revert s. induction n as [|n IH]; intros s.
  - destruct s; cbn; (split; [lia|]); eauto.
  - destruct s as [|c s]; cbn.
    + split; [lia|]. now exists "".
    + destruct (IH s) as [Hlen [rest Hrest]]. split; [lia|].
      exists rest. now rewrite <- Hrest.
Qed.

(** X14. Whatever the import gives, the [database_url] and
    [database_name] of the report tell only whether the environment
    variables [DATABASE_URL] and [DATABASE_NAME] are set to a non-empty
    string: what lines 57-58 store there (a fixed mark, the name of the
    database) never reaches the caller; [backend] is always the running
    mark. *)
Theorem report_env_fields (imp : import) (getenv : string -> option string) :
  database_url (test_database imp getenv)
  = PStr (if given (getenv "DATABASE_URL") then "✅ Set" else "❌ Not Set") /\
  database_name (test_database imp getenv)
  = PStr (if given (getenv "DATABASE_NAME") then "✅ Set" else "❌ Not Set") /\
  backend (test_database imp getenv) = "✅ Running".
Proof.
  split; [reflexivity|]. split; [reflexivity|].
  unfold test_database.
  destruct imp as [e|[db|]]; cbn -[firstn].
  - now destruct (is_import_error e).
  - unfold probe.
    destruct (name db) as [|v|e]; cbn -[firstn];
      try destruct (list_collection_names db); cbn -[firstn];
      try destruct (is_import_error e); reflexivity.
  - reflexivity.
Qed.


(** X16. [connection_status] is "Connected" exactly when the import gave
    a database other than [None] whose name could be read, and
    "Not Connected" otherwise; it stays "Connected" when listing the
    collections then fails, in which case the status carries the first
    50 characters of the error and [collections] stays empty. *)
Theorem connection_status_spec (imp : import)
  (getenv : string -> option string) :
  (connection_status (test_database imp getenv) = "Connected" <->
   exists db, imp = Imported (Some db) /\ name_readable db) /\
  (connection_status (test_database imp getenv) = "Connected" \/
   connection_status (test_database imp getenv) = "Not Connected") /\
  (forall db e,
     imp = Imported (Some db) -> name_readable db ->
     list_collection_names db = Throws e ->
     connection_status (test_database imp getenv) = "Connected" /\
     database (test_database imp getenv)
     = "⚠️  Connected but Error: " ++ short e /\
     collections (test_database imp getenv) = []).
Proof.
  unfold test_database, name_readable. split; [|split].
  - destruct imp as [e|[db|]]; cbn -[firstn].
    + split; [|intros [db [H _]]; discriminate].
      destruct (is_import_error e); cbn -[firstn]; discriminate.
    + unfold probe. destruct (name db) as [|v|e] eqn:Hn; cbn -[firstn].
      * split; [intros _|now destruct (list_collection_names db)].
        exists db. split; [reflexivity|]. intros e. congruence.
      * split; [intros _|now destruct (list_collection_names db)].
        exists db. split; [reflexivity|]. intros e. congruence.
      * split.
        -- destruct (is_import_error e); cbn -[firstn]; discriminate.
        -- intros [db' [[= <-] Hr]]. now elim (Hr e).
    + split; [discriminate | intros [db [H _]]; discriminate].
  - destruct imp as [e|[db|]]; cbn -[firstn]; auto.
    + destruct (is_import_error e); cbn -[firstn]; auto.
    + unfold probe. destruct (name db) as [|v|e]; cbn -[firstn];
        try (destruct (is_import_error e); cbn -[firstn]; auto);
        destruct (list_collection_names db); cbn -[firstn]; auto.
  - intros db e -> Hr Hl. cbn -[firstn]. unfold probe.
    destruct (name db) as [|v|e'] eqn:Hn; rewrite ?Hl; cbn -[firstn]; auto.
    now elim (Hr e').
Qed.

(** X17. An exception that leaves the outer [try] body, raised by the
    import or by the lookup of [db.name], is reported in [database]: as
    "module not found" when it is an [ImportError], whichever of the two
    raised it, and otherwise by at most the first 50 characters of its
    message; the connection status stays "Not Connected" and
    [collections] empty. *)
Theorem outer_exception_reported (imp : import)
  (getenv : string -> option string) (e : exn) :
  imp = ImportRaises e \/
  (exists db, imp = Imported (Some db) /\ name db = Failing e) ->
  database (test_database imp getenv)
  = (if is_import_error e
     then "❌ Database module not found (run enable-database first)"
     else "❌ Error: " ++ short e) /\
  connection_status (test_database imp getenv) = "Not Connected" /\
  collections (test_database imp getenv) = [] /\
  String.length (short e) <= 50 /\
  exists rest, message e = short e ++ rest.
Proof.
  intros Himp.
  assert (Hs : String.length (short e) <= 50 /\
               exists rest, message e = short e ++ rest)
    by apply substring_prefix.
  unfold test_database.
  destruct Himp as [->|[db [-> Hn]]]; cbn -[firstn]; rewrite ?Hn; cbn -[firstn];
    destruct (is_import_error e); cbn -[firstn]; auto.
Qed.

End DiagnosticsFacts.


Lemma connection_status_spec_witness :
  (exists db, Diagnostics.Imported (Some mongo) = Diagnostics.Imported (Some db)
              /\ Diagnostics.name_readable db) /\
  Diagnostics.connection_status
    (Diagnostics.test_database (Diagnostics.Imported (Some mongo)) env_url_only)
  = "Connected".
Proof.
  assert (H : exists db,
             Diagnostics.Imported (Some mongo) = Diagnostics.Imported (Some db)
             /\ Diagnostics.name_readable db).
  { exists mongo. split; [reflexivity|]. intros e. discriminate. }
  split; [exact H|].
  apply (proj1 (DiagnosticsFacts.connection_status_spec
                  (Diagnostics.Imported (Some mongo)) env_url_only)).
  exact H.
Defined.

Lemma outer_exception_reported_witness :
  Diagnostics.database
    (Diagnostics.test_database
       (Diagnostics.ImportRaises
          {| Diagnostics.is_import_error := false;
             Diagnostics.message := "connection refused" |})
       env_url_only)
  = "❌ Error: connection refused".
Proof.
  apply (DiagnosticsFacts.outer_exception_reported
           (Diagnostics.ImportRaises
              {| Diagnostics.is_import_error := false;
                 Diagnostics.message := "connection refused" |})
           env_url_only _ (or_introl eq_refl)).
Defined.

(** * Case and the location parameter *)

Section Case.
Context {L : Library}.
Variable order : SetOrder.
Variable upstream : provider.
Variables query category job_type : option string.
Variable remote : option bool.

Lemma lower_empty (s : string) : PyStr.lower s = "" <-> s = "".
Proof. destruct s; cbn; split; congruence. Qed.

(** X18. The location filter does not see the case of the [location]
    parameter: two parameters with the same lower-cased form fetch the
    same jobs. *)
Theorem location_case_insensitive (loc loc' : string) :
  PyStr.lower loc = PyStr.lower loc' ->
  fetched order upstream query (Some loc) category job_type remote
  = fetched order upstream query (Some loc') category job_type remote.
Proof.
  intros Hl. rewrite !fetched_eq.
  destruct (listing_of _) as [items|]; [|reflexivity].
  rewrite (kept_ext order order (Some loc) (Some loc') remote remote);
    [reflexivity|].
  intros job. unfold keeps, location_skips. rewrite !given_some, Hl.
  assert (He : String.eqb loc "" = String.eqb loc' "").
  { destruct (String.eqb_spec loc ""), (String.eqb_spec loc' "");
      try reflexivity; subst.
    - symmetry in Hl. apply (proj1 (lower_empty loc')) in Hl. contradiction.
    - apply (proj1 (lower_empty loc)) in Hl. contradiction. }
  now rewrite He.
Qed.

End Case.

Lemma location_case_insensitive_witness :
  PyStr.lower "BERLIN" = PyStr.lower "berlin" /\
  fetched source_order damaged_feed None (Some "BERLIN") None None None
          (L := pydantic2)
  = fetched source_order damaged_feed None (Some "berlin") None None None
            (L := pydantic2).
Proof.
  split; [reflexivity|].
  apply (location_case_insensitive (L := pydantic2) source_order damaged_feed
           None None None None "BERLIN" "berlin" eq_refl).
Defined.

Lemma loop_stops_at_bad_record_witness :
  normalize posting_without_url (L := pydantic2) = None /\
  for_each ([posting_1] ++ posting_without_url :: [posting_berlin])
           (loop_body source_order None None (L := pydantic2)) []
  = (Raised, [job_1]).
Proof.
  split; [reflexivity|].
  apply (loop_stops_at_bad_record (L := pydantic2) source_order None None
           [posting_1] [posting_berlin] posting_without_url [] eq_refl).
Defined.
